(** * react-native-web-maps: the MapView adapter

    A shallow embedding of the two MapView components of the package
    (the plain one and the one with user-location support) together
    with the properties of their viewport reconciliation, event
    mediation, camera handle, option merging and location overlay. *)

From Stdlib Require Import ZArith QArith Lia.
From stdpp Require Import base option list gmap strings.

Local Open Scope Z_scope.

(** * JavaScript values *)

Module Js.

(** A JavaScript number.  Finite values are kept exact (rationals), the
    two infinities and NaN are values of their own; the sign of zero and
    the rounding of doubles are not modelled. *)
Inductive number : Type :=
| Fin (q : Q)
| Inf (negative : bool)
| NaN.

Definition zero : number := Fin 0.

Definition isNegative (q : Q) : bool := negb (Qle_bool 0 q).

(** [x / y] *)
Definition div (x y : number) : number :=
  match x, y with
  | NaN, _ | _, NaN => NaN
  | Inf _, Inf _ => NaN
  | Inf s, Fin q => Inf (xorb s (isNegative q))
  | Fin _, Inf _ => Fin 0
  | Fin p, Fin q =>
      if Qeq_bool q 0
      then (if Qeq_bool p 0 then NaN else Inf (isNegative p))
      else Fin (p / q)
  end.

(** [x * y] *)
Definition mul (x y : number) : number :=
  match x, y with
  | NaN, _ | _, NaN => NaN
  | Inf s, Inf t => Inf (xorb s t)
  | Inf s, Fin q | Fin q, Inf s =>
      if Qeq_bool q 0 then NaN else Inf (xorb s (isNegative q))
  | Fin p, Fin q => Fin (p * q)
  end.

(** The values that end up in a widget options object. *)
Inductive value : Type :=
| VUndefined
| VBool (b : bool)
| VNum (x : number)
| VStr (s : string)
| VRef (address : nat).

(** An absent prop is the value [undefined].  (Elsewhere an expression
    that may be undefined is an [option]: [x ?? d] is [default d x] and
    [o?.m()] is [o ≫= m].) *)
Definition ofOption {A} (inj : A → value) (x : option A) : value :=
  match x with
  | Some a => inj a
  | None => VUndefined
  end.

End Js.

Import Js.

(** * Types of react-native-maps and of the widget *)

Module LatLng.
Record t : Type := { latitude : number; longitude : number }.
End LatLng.

Module Region.
Record t : Type :=
  { latitude : number;
    longitude : number;
    latitudeDelta : number;
    longitudeDelta : number }.
End Region.

Module Delta.
Record t : Type := { latitudeDelta : number; longitudeDelta : number }.
End Delta.

(** [Camera]: everything but [center] is what the code calls [others]. *)
Module Camera.
Record t : Type :=
  { center : LatLng.t;
    pitch : option number;
    heading : option number;
    altitude : option number;
    zoom : option Z }.
End Camera.

(** The second argument of the region callbacks. *)
Record Details : Type := { isGesture : bool }.

(** ./utils is imported by both components: the two conversions are an
    interface of the development. *)
Class Utils : Type :=
  { calcZoom : number → Z;
    zoomReverseDelta : option Z → number → Delta.t }.

(** * The zoom/delta converter *)

Module Converter.

Definition referenceWorldWidth : Q := 360.
Definition minZoom : Z := 0.
Definition maxZoom : Z := 21.

(** [floor (log2 q)] of a positive rational: the difference of the bit
    lengths of numerator and denominator is the answer or one above it. *)
Definition floor_log2 (q : Q) : Z :=
  let n := Qnum q in
  let d := Z.pos (Qden q) in
  let k := Z.log2 n - Z.log2 d in
  if d * 2 ^ Z.max 0 k <=? n * 2 ^ Z.max 0 (- k) then k else k - 1.

(** The integer nearest to [log2 q]: [n] with [2^(2n-1) <= q*q < 2^(2n+1)]
    (a rational never sits on the half way point). *)
Definition round_log2 (q : Q) : Z := (floor_log2 (q * q) + 1) / 2.

Definition clamp (z : Z) : Z := Z.max minZoom (Z.min maxZoom z).

(** Modelled from the spec: ./utils (calcZoom, zoomReverseDelta) is not
    among the sources.  Section 4.1, [deltaToZoom]: the base-2 logarithm
    of (reference world width / longitudeDelta), rounded to the nearest
    integer and clamped to the supported zoom range; a delta that is 0
    or negative counts as the smallest valid delta (maximum zoom). *)
Definition deltaToZoom (longitudeDelta : number) : Z :=
  match longitudeDelta with
  | Fin q =>
      if Qle_bool q 0 then maxZoom
      else clamp (round_log2 (referenceWorldWidth / q))
  | Inf false => minZoom
  | Inf true | NaN => maxZoom
  end.

Definition pow2 (z : Z) : Q :=
  if 0 <=? z then inject_Z (2 ^ z) else / inject_Z (2 ^ (- z)).

(** Modelled from the spec: ./utils is not among the sources.  Section
    4.1, [zoomToDelta]: longitudeDelta = reference world width /
    2^zoomLevel and latitudeDelta = longitudeDelta * deltaRatio.  An
    undefined zoom level makes the power, and with it both deltas, NaN. *)
Definition zoomToDelta (zoomLevel : option Z) (deltaRatio : number) : Delta.t :=
  let longitudeDelta :=
    match zoomLevel with
    | Some z => Fin (referenceWorldWidth / pow2 z)
    | None => NaN
    end in
  {| Delta.latitudeDelta := mul longitudeDelta deltaRatio;
     Delta.longitudeDelta := longitudeDelta |}.

Definition utils : Utils :=
  {| calcZoom := deltaToZoom; zoomReverseDelta := zoomToDelta |}.

End Converter.

(** * Configuration and props *)

Inductive MapType : Type := standard | satellite | hybrid | terrain.

(** ./config is not among the sources: its three constants are taken as
    parameters.  [DEFAULT_OPTIONS] is the content of that object when the
    module is loaded. *)
Class Config : Type :=
  { DEFAULT_OPTIONS : gmap string value;
    MAP_TYPE_MAPS : MapType → value;
    DEFAULT_REGION : Region.t }.

(** The props the components destructure; an absent prop is [None] (the
    defaults of the parameter list are applied where the prop is used),
    a callback prop records whether the caller supplied it. *)
Record Props : Type :=
  { region : option Region.t;
    initialRegion : option Region.t;
    zoomEnabled : option bool;
    zoomControlEnabled : option bool;
    zoomTapEnabled : option bool;
    minZoomLevel : option number;
    maxZoomLevel : option number;
    mapType : option MapType;
    customMapStyle : option nat;
    showsMyLocationButton : option bool;
    showsUserLocation : option bool;
    provideOptions : option (gmap string value);
    onMapReady : bool;
    onRegionChange : bool;
    onRegionChangeComplete : bool }.

(** What the component calls on its caller. *)
Inductive Outward : Type :=
| MapReady
| RegionChange (r : Region.t) (d : Details)
| RegionChangeComplete (r : Region.t) (d : Details).

(** [f?.(x)]: the call happens when the callback was supplied. *)
Definition optcall (supplied : bool) (c : Outward) : list Outward :=
  if supplied then [c] else [].

(** [region?.f ?? initialRegion?.f ?? DEFAULT_REGION.f] *)
Definition startField `{Config} (f : Region.t → number) (p : Props) : number :=
  default (default (f DEFAULT_REGION) (f <$> initialRegion p)) (f <$> region p).

(** The object literal both option memos build from the props. *)
Definition computedOptions `{Config} (p : Props) : gmap string value :=
  <["gestureHandling" := VStr (if default true (zoomEnabled p) then "auto" else "none")]>
  (<["zoomControl" := VBool (default true (zoomControlEnabled p))]>
  (<["disableDoubleClickZoom" := VBool (negb (default true (zoomTapEnabled p)))]>
  (<["mapTypeId" := MAP_TYPE_MAPS (default standard (mapType p))]>
  (<["styles" := ofOption VRef (customMapStyle p)]>
  (<["minZoom" := ofOption VNum (minZoomLevel p)]>
  (<["maxZoom" := ofOption VNum (maxZoomLevel p)]> ∅)))))).

(** The dependency lists of the hooks, compared by value: a prop counts
    as changed when its value differs. *)
Definition optionDeps (p : Props) :=
  (zoomEnabled p, zoomControlEnabled p, zoomTapEnabled p, mapType p,
   customMapStyle p, minZoomLevel p, maxZoomLevel p, provideOptions p).

#[export] Instance Q_eq_dec : EqDecision Q.
Proof. solve_decision. Defined.
#[export] Instance number_eq_dec : EqDecision number.
Proof. solve_decision. Defined.
#[export] Instance value_eq_dec : EqDecision value.
Proof. solve_decision. Defined.
#[export] Instance MapType_eq_dec : EqDecision MapType.
Proof. solve_decision. Defined.
#[export] Instance Region_eq_dec : EqDecision Region.t.
Proof. solve_decision. Defined.

(** * The map widget and the browser, as the components use them *)

Module GoogleMaps.

Record LatLngLiteral : Type := { lat : number; lng : number }.

(** The argument of [moveCamera]: the translated center and the
    remaining camera fields as they came. *)
Module CameraOptions.
Record t : Type :=
  { center : LatLngLiteral;
    pitch : option number;
    heading : option number;
    altitude : option number;
    zoom : option Z }.
End CameraOptions.

Inductive Call : Type :=
| PanTo (p : LatLngLiteral)
| MoveCamera (o : CameraOptions.t)
| SetStyles (styles : nat).

(** A [google.maps.Map]: its camera, and the calls made on it (oldest
    first).  Zoom levels are integers. *)
Record Map : Type :=
  { map_center : option LatLngLiteral;
    map_zoom : option Z;
    map_tilt : option number;
    map_heading : option number;
    map_calls : list Call }.

Definition getCenter (m : Map) : option LatLngLiteral := map_center m.
Definition getZoom (m : Map) : option Z := map_zoom m.
Definition getTilt (m : Map) : option number := map_tilt m.
Definition getHeading (m : Map) : option number := map_heading m.

(** [panTo] moves the center and nothing else. *)
Definition panTo (p : LatLngLiteral) (m : Map) : Map :=
  {| map_center := Some p;
     map_zoom := map_zoom m;
     map_tilt := map_tilt m;
     map_heading := map_heading m;
     map_calls := map_calls m ++ [PanTo p] |}.

(** [moveCamera] takes center, heading and zoom from its argument where
    given; [pitch] and [altitude] are no keys of the widget's camera. *)
Definition moveCamera (o : CameraOptions.t) (m : Map) : Map :=
  {| map_center := Some (CameraOptions.center o);
     map_zoom := from_option Some (map_zoom m) (CameraOptions.zoom o);
     map_tilt := map_tilt m;
     map_heading := from_option Some (map_heading m) (CameraOptions.heading o);
     map_calls := map_calls m ++ [MoveCamera o] |}.

Definition setOptions (styles : nat) (m : Map) : Map :=
  {| map_center := map_center m;
     map_zoom := map_zoom m;
     map_tilt := map_tilt m;
     map_heading := map_heading m;
     map_calls := map_calls m ++ [SetStyles styles] |}.

(** The camera as the user or the widget itself moves it. *)
Definition moved (c : option LatLngLiteral) (z : option Z)
    (t h : option number) (m : Map) : Map :=
  {| map_center := c;
     map_zoom := z;
     map_tilt := t;
     map_heading := h;
     map_calls := map_calls m |}.

(** A [google.maps.Marker]: where it is and whether it is on the map
    ([setMap(null)] takes it off). *)
Record Marker : Type := { position : LatLngLiteral; onMap : bool }.

End GoogleMaps.

Import GoogleMaps.

(** The component renders one widget; the load handler receives it and
    the [instance] ref then holds this reference to it. *)
Inductive MapRef : Type := TheMap.

(** [{ isGesture: true }] *)
Definition gesture : Details := {| isGesture := true |}.

(** * The first component: MapView without the location overlay *)

Module MapViewA.

(** Everything the component can read or write: the module-level
    options object, the current props, the refs, the state and memo
    cells, the widget, and the calls made outward (oldest first). *)
Record World : Type :=
  { defaultOptions : gmap string value;
    props : Props;
    instance : option MapRef;
    hasIdleTriggerd : bool;
    center : LatLngLiteral;
    zoom : Z;
    deltaRatio : number;
    options : gmap string value;
    widget : Map;
    trace : list Outward }.

Definition set_props (p : Props) (w : World) : World :=
  {| defaultOptions := defaultOptions w; props := p; instance := instance w;
     hasIdleTriggerd := hasIdleTriggerd w; center := center w; zoom := zoom w;
     deltaRatio := deltaRatio w; options := options w; widget := widget w;
     trace := trace w |}.

Definition set_instance (i : option MapRef) (w : World) : World :=
  {| defaultOptions := defaultOptions w; props := props w; instance := i;
     hasIdleTriggerd := hasIdleTriggerd w; center := center w; zoom := zoom w;
     deltaRatio := deltaRatio w; options := options w; widget := widget w;
     trace := trace w |}.

Definition set_hasIdleTriggerd (b : bool) (w : World) : World :=
  {| defaultOptions := defaultOptions w; props := props w; instance := instance w;
     hasIdleTriggerd := b; center := center w; zoom := zoom w;
     deltaRatio := deltaRatio w; options := options w; widget := widget w;
     trace := trace w |}.

Definition setCenter (c : LatLngLiteral) (w : World) : World :=
  {| defaultOptions := defaultOptions w; props := props w; instance := instance w;
     hasIdleTriggerd := hasIdleTriggerd w; center := c; zoom := zoom w;
     deltaRatio := deltaRatio w; options := options w; widget := widget w;
     trace := trace w |}.

Definition setZoom (z : Z) (w : World) : World :=
  {| defaultOptions := defaultOptions w; props := props w; instance := instance w;
     hasIdleTriggerd := hasIdleTriggerd w; center := center w; zoom := z;
     deltaRatio := deltaRatio w; options := options w; widget := widget w;
     trace := trace w |}.

Definition set_deltaRatio (r : number) (w : World) : World :=
  {| defaultOptions := defaultOptions w; props := props w; instance := instance w;
     hasIdleTriggerd := hasIdleTriggerd w; center := center w; zoom := zoom w;
     deltaRatio := r; options := options w; widget := widget w;
     trace := trace w |}.

Definition set_options (o : gmap string value) (w : World) : World :=
  {| defaultOptions := defaultOptions w; props := props w; instance := instance w;
     hasIdleTriggerd := hasIdleTriggerd w; center := center w; zoom := zoom w;
     deltaRatio := deltaRatio w; options := o; widget := widget w;
     trace := trace w |}.

Definition set_widget (m : Map) (w : World) : World :=
  {| defaultOptions := defaultOptions w; props := props w; instance := instance w;
     hasIdleTriggerd := hasIdleTriggerd w; center := center w; zoom := zoom w;
     deltaRatio := deltaRatio w; options := options w; widget := m;
     trace := trace w |}.

Definition emit (cs : list Outward) (w : World) : World :=
  {| defaultOptions := defaultOptions w; props := props w; instance := instance w;
     hasIdleTriggerd := hasIdleTriggerd w; center := center w; zoom := zoom w;
     deltaRatio := deltaRatio w; options := options w; widget := widget w;
     trace := trace w ++ cs |}.

(** [instance.current], dereferenced *)
Definition current (w : World) : option Map :=
  match instance w with
  | Some TheMap => Some (widget w)
  | None => None
  end.

Section Component.
Context `{Utils} `{Config}.

(** The [options] memo: a fresh object, spread left to right. *)
Definition buildOptions (w : World) : gmap string value :=
  default ∅ (provideOptions (props w))
  ∪ (computedOptions (props w) ∪ defaultOptions w).

Definition useMemo_options (w : World) : World :=
  set_options (buildOptions w) w.

Definition useMemo_deltaRatio (w : World) : World :=
  set_deltaRatio
    (div (startField Region.latitudeDelta (props w))
         (startField Region.longitudeDelta (props w))) w.

Definition getCamera (w : World) : Camera.t :=
  let center := current w ≫= getCenter in
  {| Camera.center :=
       {| LatLng.latitude := default zero (lat <$> center);
          LatLng.longitude := default zero (lng <$> center) |};
     Camera.pitch := Some (default zero (current w ≫= getTilt));
     Camera.altitude := Some zero;
     Camera.heading := Some (default zero (current w ≫= getHeading));
     Camera.zoom := Some (default 0 (current w ≫= getZoom)) |}.

Definition animateCamera (c : Camera.t) (w : World) : World :=
  match current w with
  | Some map =>
      set_widget
        (moveCamera
           {| CameraOptions.center :=
                {| lat := LatLng.latitude (Camera.center c);
                   lng := LatLng.longitude (Camera.center c) |};
              CameraOptions.pitch := Camera.pitch c;
              CameraOptions.heading := Camera.heading c;
              CameraOptions.altitude := Camera.altitude c;
              CameraOptions.zoom := Camera.zoom c |} map) w
  | None => w
  end.

Definition setCamera (c : Camera.t) (w : World) : World :=
  match current w with
  | Some map =>
      set_widget
        (moveCamera
           {| CameraOptions.center :=
                {| lat := LatLng.latitude (Camera.center c);
                   lng := LatLng.longitude (Camera.center c) |};
              CameraOptions.pitch := Camera.pitch c;
              CameraOptions.heading := Camera.heading c;
              CameraOptions.altitude := Camera.altitude c;
              CameraOptions.zoom := Camera.zoom c |} map) w
  | None => w
  end.

Definition animateToRegion (region : Region.t) (w : World) : World :=
  match current w with
  | Some map =>
      set_widget
        (panTo {| lat := Region.latitude region;
                  lng := Region.longitude region |} map) w
  | None => w
  end.

(** The body of [useUpdateEffect(..., [region])]. *)
Definition regionEffect (w : World) : World :=
  match region (props w) with
  | None => w
  | Some region =>
      setZoom (calcZoom (Region.longitudeDelta region))
        (setCenter {| lat := Region.latitude region;
                      lng := Region.longitude region |} w)
  end.

Definition onLoad (w : World) : World :=
  let w := set_instance (Some TheMap) w in
  let w :=
    match customMapStyle (props w) with
    | Some styles => set_widget (setOptions styles (widget w)) w
    | None => w
    end in
  emit (optcall (onMapReady (props w)) MapReady) w.

Definition getCurrentRegion (w : World) : Region.t :=
  let zoom := current w ≫= getZoom in
  let center := current w ≫= getCenter in
  let delta :=
    match zoom with
    | None => None
    | Some z => Some (zoomReverseDelta (Some z) (deltaRatio w))
    end in
  {| Region.latitude := default zero (lat <$> center);
     Region.latitudeDelta := default zero (Delta.latitudeDelta <$> delta);
     Region.longitude := default zero (lng <$> center);
     Region.longitudeDelta := default zero (Delta.longitudeDelta <$> delta) |}.

Definition onChangeComplete (w : World) : World :=
  let _region := getCurrentRegion w in
  let w := emit (optcall (onRegionChange (props w)) (RegionChange _region gesture)) w in
  emit (optcall (onRegionChangeComplete (props w))
          (RegionChangeComplete _region gesture)) w.

Definition onZoomChanged (w : World) : World :=
  match instance w with
  | None => w
  | Some _ => onChangeComplete w
  end.

Definition onIdle (w : World) : World :=
  if negb (hasIdleTriggerd w) then set_hasIdleTriggerd true w
  else onChangeComplete w.

Definition onDrag (w : World) : World :=
  let _region := getCurrentRegion w in
  emit (optcall (onRegionChange (props w)) (RegionChange _region gesture)) w.

Definition onClick (w : World) : World := w.

Definition onDblClick (w : World) : World := w.

(** The first render. *)
Definition mount (p : Props) (map : Map) : World :=
  let w :=
    {| defaultOptions := DEFAULT_OPTIONS; props := p; instance := None;
       hasIdleTriggerd := false;
       center := {| lat := startField Region.latitude p;
                    lng := startField Region.longitude p |};
       zoom := calcZoom (startField Region.longitudeDelta p);
       deltaRatio := zero; options := ∅; widget := map; trace := [] |} in
  useMemo_deltaRatio (useMemo_options w).

(** A later render with props [p]: the memos whose dependencies changed
    are recomputed, then the update effect runs if [region] changed. *)
Definition rerender (p : Props) (w : World) : World :=
  let old := props w in
  let w := set_props p w in
  let w := if decide (optionDeps old = optionDeps p) then w
           else useMemo_options w in
  let w := if decide ((region old, initialRegion old) = (region p, initialRegion p))
           then w else useMemo_deltaRatio w in
  if decide (region old = region p) then w else regionEffect w.

(** What can happen to a mounted component. *)
Inductive event : Type :=
| Rerender (p : Props)
| Load
| ZoomChanged
| Idle
| Drag
| Click
| DblClick
| Moved (c : option LatLngLiteral) (z : option Z) (t h : option number)
| AnimateCamera (c : Camera.t)
| SetCamera (c : Camera.t)
| AnimateToRegion (r : Region.t).

Definition step (w : World) (e : event) : World :=
  match e with
  | Rerender p => rerender p w
  | Load => onLoad w
  | ZoomChanged => onZoomChanged w
  | Idle => onIdle w
  | Drag => onDrag w
  | Click => onClick w
  | DblClick => onDblClick w
  | Moved c z t h => set_widget (moved c z t h (widget w)) w
  | AnimateCamera c => animateCamera c w
  | SetCamera c => setCamera c w
  | AnimateToRegion r => animateToRegion r w
  end.

Definition run (w : World) (es : list event) : World := foldl step w es.

End Component.

End MapViewA.

(** * The second component: MapView with the location overlay *)

Module MapViewB.

(** What the location overlay does to the widget's markers and to the
    browser's geolocation, in order. *)
Inductive OverlayCall : Type :=
| NewMarker (id : nat) (pos : LatLngLiteral)
| SetPosition (id : nat) (pos : LatLngLiteral)
| SetMapNull (id : nat)
| GetCurrentPosition
| WatchPosition (watchId : nat)
| ClearWatch (watchId : nat).

(** The world of the first component, and in addition: the refs and the
    state of the overlay, the clean-up the location effect returned last
    ([watchCleanup], the watch it will clear), whether the component is
    still mounted, the marker objects ever created (a marker is known by
    its index), and the browser's geolocation: whether it exists, how
    many one-shot requests of the effect are unanswered, which watches
    are active. *)
Record World : Type :=
  { defaultOptions : gmap string value;
    props : Props;
    instance : option MapRef;
    locationButtonRef : bool;
    userLocationMarker : option nat;
    mapLoaded : bool;
    hasIdleTriggerd : bool;
    center : LatLngLiteral;
    zoom : Z;
    deltaRadio : number;
    watchCleanup : option nat;
    mounted : bool;
    widget : Map;
    markers : list Marker;
    geolocation : bool;
    pendingFixes : nat;
    watches : list nat;
    nextWatchId : nat;
    overlay : list OverlayCall;
    trace : list Outward }.

Definition set_defaultOptions (x : gmap string value) (w : World) : World :=
  {| defaultOptions := x; props := props w; instance := instance w;
     locationButtonRef := locationButtonRef w;
     userLocationMarker := userLocationMarker w; mapLoaded := mapLoaded w;
     hasIdleTriggerd := hasIdleTriggerd w; center := center w;
     zoom := zoom w; deltaRadio := deltaRadio w;
     watchCleanup := watchCleanup w; mounted := mounted w;
     widget := widget w; markers := markers w; geolocation := geolocation w;
     pendingFixes := pendingFixes w; watches := watches w;
     nextWatchId := nextWatchId w; overlay := overlay w; trace := trace w |}.

Definition set_props (x : Props) (w : World) : World :=
  {| defaultOptions := defaultOptions w; props := x; instance := instance w;
     locationButtonRef := locationButtonRef w;
     userLocationMarker := userLocationMarker w; mapLoaded := mapLoaded w;
     hasIdleTriggerd := hasIdleTriggerd w; center := center w;
     zoom := zoom w; deltaRadio := deltaRadio w;
     watchCleanup := watchCleanup w; mounted := mounted w;
     widget := widget w; markers := markers w; geolocation := geolocation w;
     pendingFixes := pendingFixes w; watches := watches w;
     nextWatchId := nextWatchId w; overlay := overlay w; trace := trace w |}.

Definition set_instance (x : option MapRef) (w : World) : World :=
  {| defaultOptions := defaultOptions w; props := props w; instance := x;
     locationButtonRef := locationButtonRef w;
     userLocationMarker := userLocationMarker w; mapLoaded := mapLoaded w;
     hasIdleTriggerd := hasIdleTriggerd w; center := center w;
     zoom := zoom w; deltaRadio := deltaRadio w;
     watchCleanup := watchCleanup w; mounted := mounted w;
     widget := widget w; markers := markers w; geolocation := geolocation w;
     pendingFixes := pendingFixes w; watches := watches w;
     nextWatchId := nextWatchId w; overlay := overlay w; trace := trace w |}.

Definition set_locationButtonRef (x : bool) (w : World) : World :=
  {| defaultOptions := defaultOptions w; props := props w;
     instance := instance w; locationButtonRef := x;
     userLocationMarker := userLocationMarker w; mapLoaded := mapLoaded w;
     hasIdleTriggerd := hasIdleTriggerd w; center := center w;
     zoom := zoom w; deltaRadio := deltaRadio w;
     watchCleanup := watchCleanup w; mounted := mounted w;
     widget := widget w; markers := markers w; geolocation := geolocation w;
     pendingFixes := pendingFixes w; watches := watches w;
     nextWatchId := nextWatchId w; overlay := overlay w; trace := trace w |}.

Definition set_userLocationMarker (x : option nat) (w : World) : World :=
  {| defaultOptions := defaultOptions w; props := props w;
     instance := instance w; locationButtonRef := locationButtonRef w;
     userLocationMarker := x; mapLoaded := mapLoaded w;
     hasIdleTriggerd := hasIdleTriggerd w; center := center w;
     zoom := zoom w; deltaRadio := deltaRadio w;
     watchCleanup := watchCleanup w; mounted := mounted w;
     widget := widget w; markers := markers w; geolocation := geolocation w;
     pendingFixes := pendingFixes w; watches := watches w;
     nextWatchId := nextWatchId w; overlay := overlay w; trace := trace w |}.

Definition setMapLoaded (x : bool) (w : World) : World :=
  {| defaultOptions := defaultOptions w; props := props w;
     instance := instance w; locationButtonRef := locationButtonRef w;
     userLocationMarker := userLocationMarker w; mapLoaded := x;
     hasIdleTriggerd := hasIdleTriggerd w; center := center w;
     zoom := zoom w; deltaRadio := deltaRadio w;
     watchCleanup := watchCleanup w; mounted := mounted w;
     widget := widget w; markers := markers w; geolocation := geolocation w;
     pendingFixes := pendingFixes w; watches := watches w;
     nextWatchId := nextWatchId w; overlay := overlay w; trace := trace w |}.

Definition set_hasIdleTriggerd (x : bool) (w : World) : World :=
  {| defaultOptions := defaultOptions w; props := props w;
     instance := instance w; locationButtonRef := locationButtonRef w;
     userLocationMarker := userLocationMarker w; mapLoaded := mapLoaded w;
     hasIdleTriggerd := x; center := center w; zoom := zoom w;
     deltaRadio := deltaRadio w; watchCleanup := watchCleanup w;
     mounted := mounted w; widget := widget w; markers := markers w;
     geolocation := geolocation w; pendingFixes := pendingFixes w;
     watches := watches w; nextWatchId := nextWatchId w;
     overlay := overlay w; trace := trace w |}.

Definition setCenter (x : LatLngLiteral) (w : World) : World :=
  {| defaultOptions := defaultOptions w; props := props w;
     instance := instance w; locationButtonRef := locationButtonRef w;
     userLocationMarker := userLocationMarker w; mapLoaded := mapLoaded w;
     hasIdleTriggerd := hasIdleTriggerd w; center := x; zoom := zoom w;
     deltaRadio := deltaRadio w; watchCleanup := watchCleanup w;
     mounted := mounted w; widget := widget w; markers := markers w;
     geolocation := geolocation w; pendingFixes := pendingFixes w;
     watches := watches w; nextWatchId := nextWatchId w;
     overlay := overlay w; trace := trace w |}.

Definition setZoom (x : Z) (w : World) : World :=
  {| defaultOptions := defaultOptions w; props := props w;
     instance := instance w; locationButtonRef := locationButtonRef w;
     userLocationMarker := userLocationMarker w; mapLoaded := mapLoaded w;
     hasIdleTriggerd := hasIdleTriggerd w; center := center w; zoom := x;
     deltaRadio := deltaRadio w; watchCleanup := watchCleanup w;
     mounted := mounted w; widget := widget w; markers := markers w;
     geolocation := geolocation w; pendingFixes := pendingFixes w;
     watches := watches w; nextWatchId := nextWatchId w;
     overlay := overlay w; trace := trace w |}.

Definition set_deltaRadio (x : number) (w : World) : World :=
  {| defaultOptions := defaultOptions w; props := props w;
     instance := instance w; locationButtonRef := locationButtonRef w;
     userLocationMarker := userLocationMarker w; mapLoaded := mapLoaded w;
     hasIdleTriggerd := hasIdleTriggerd w; center := center w;
     zoom := zoom w; deltaRadio := x; watchCleanup := watchCleanup w;
     mounted := mounted w; widget := widget w; markers := markers w;
     geolocation := geolocation w; pendingFixes := pendingFixes w;
     watches := watches w; nextWatchId := nextWatchId w;
     overlay := overlay w; trace := trace w |}.

Definition set_watchCleanup (x : option nat) (w : World) : World :=
  {| defaultOptions := defaultOptions w; props := props w;
     instance := instance w; locationButtonRef := locationButtonRef w;
     userLocationMarker := userLocationMarker w; mapLoaded := mapLoaded w;
     hasIdleTriggerd := hasIdleTriggerd w; center := center w;
     zoom := zoom w; deltaRadio := deltaRadio w; watchCleanup := x;
     mounted := mounted w; widget := widget w; markers := markers w;
     geolocation := geolocation w; pendingFixes := pendingFixes w;
     watches := watches w; nextWatchId := nextWatchId w;
     overlay := overlay w; trace := trace w |}.

Definition set_mounted (x : bool) (w : World) : World :=
  {| defaultOptions := defaultOptions w; props := props w;
     instance := instance w; locationButtonRef := locationButtonRef w;
     userLocationMarker := userLocationMarker w; mapLoaded := mapLoaded w;
     hasIdleTriggerd := hasIdleTriggerd w; center := center w;
     zoom := zoom w; deltaRadio := deltaRadio w;
     watchCleanup := watchCleanup w; mounted := x; widget := widget w;
     markers := markers w; geolocation := geolocation w;
     pendingFixes := pendingFixes w; watches := watches w;
     nextWatchId := nextWatchId w; overlay := overlay w; trace := trace w |}.

Definition set_widget (x : Map) (w : World) : World :=
  {| defaultOptions := defaultOptions w; props := props w;
     instance := instance w; locationButtonRef := locationButtonRef w;
     userLocationMarker := userLocationMarker w; mapLoaded := mapLoaded w;
     hasIdleTriggerd := hasIdleTriggerd w; center := center w;
     zoom := zoom w; deltaRadio := deltaRadio w;
     watchCleanup := watchCleanup w; mounted := mounted w; widget := x;
     markers := markers w; geolocation := geolocation w;
     pendingFixes := pendingFixes w; watches := watches w;
     nextWatchId := nextWatchId w; overlay := overlay w; trace := trace w |}.

Definition set_markers (x : list Marker) (w : World) : World :=
  {| defaultOptions := defaultOptions w; props := props w;
     instance := instance w; locationButtonRef := locationButtonRef w;
     userLocationMarker := userLocationMarker w; mapLoaded := mapLoaded w;
     hasIdleTriggerd := hasIdleTriggerd w; center := center w;
     zoom := zoom w; deltaRadio := deltaRadio w;
     watchCleanup := watchCleanup w; mounted := mounted w;
     widget := widget w; markers := x; geolocation := geolocation w;
     pendingFixes := pendingFixes w; watches := watches w;
     nextWatchId := nextWatchId w; overlay := overlay w; trace := trace w |}.

Definition set_pendingFixes (x : nat) (w : World) : World :=
  {| defaultOptions := defaultOptions w; props := props w;
     instance := instance w; locationButtonRef := locationButtonRef w;
     userLocationMarker := userLocationMarker w; mapLoaded := mapLoaded w;
     hasIdleTriggerd := hasIdleTriggerd w; center := center w;
     zoom := zoom w; deltaRadio := deltaRadio w;
     watchCleanup := watchCleanup w; mounted := mounted w;
     widget := widget w; markers := markers w; geolocation := geolocation w;
     pendingFixes := x; watches := watches w; nextWatchId := nextWatchId w;
     overlay := overlay w; trace := trace w |}.

Definition set_watches (x : list nat) (w : World) : World :=
  {| defaultOptions := defaultOptions w; props := props w;
     instance := instance w; locationButtonRef := locationButtonRef w;
     userLocationMarker := userLocationMarker w; mapLoaded := mapLoaded w;
     hasIdleTriggerd := hasIdleTriggerd w; center := center w;
     zoom := zoom w; deltaRadio := deltaRadio w;
     watchCleanup := watchCleanup w; mounted := mounted w;
     widget := widget w; markers := markers w; geolocation := geolocation w;
     pendingFixes := pendingFixes w; watches := x;
     nextWatchId := nextWatchId w; overlay := overlay w; trace := trace w |}.

Definition set_nextWatchId (x : nat) (w : World) : World :=
  {| defaultOptions := defaultOptions w; props := props w;
     instance := instance w; locationButtonRef := locationButtonRef w;
     userLocationMarker := userLocationMarker w; mapLoaded := mapLoaded w;
     hasIdleTriggerd := hasIdleTriggerd w; center := center w;
     zoom := zoom w; deltaRadio := deltaRadio w;
     watchCleanup := watchCleanup w; mounted := mounted w;
     widget := widget w; markers := markers w; geolocation := geolocation w;
     pendingFixes := pendingFixes w; watches := watches w; nextWatchId := x;
     overlay := overlay w; trace := trace w |}.

Definition emit (cs : list Outward) (w : World) : World :=
  {| defaultOptions := defaultOptions w; props := props w;
     instance := instance w; locationButtonRef := locationButtonRef w;
     userLocationMarker := userLocationMarker w; mapLoaded := mapLoaded w;
     hasIdleTriggerd := hasIdleTriggerd w; center := center w;
     zoom := zoom w; deltaRadio := deltaRadio w;
     watchCleanup := watchCleanup w; mounted := mounted w;
     widget := widget w; markers := markers w; geolocation := geolocation w;
     pendingFixes := pendingFixes w; watches := watches w;
     nextWatchId := nextWatchId w; overlay := overlay w;
     trace := trace w ++ cs |}.

Definition record (cs : list OverlayCall) (w : World) : World :=
  {| defaultOptions := defaultOptions w; props := props w;
     instance := instance w; locationButtonRef := locationButtonRef w;
     userLocationMarker := userLocationMarker w; mapLoaded := mapLoaded w;
     hasIdleTriggerd := hasIdleTriggerd w; center := center w;
     zoom := zoom w; deltaRadio := deltaRadio w;
     watchCleanup := watchCleanup w; mounted := mounted w;
     widget := widget w; markers := markers w; geolocation := geolocation w;
     pendingFixes := pendingFixes w; watches := watches w;
     nextWatchId := nextWatchId w; overlay := overlay w ++ cs;
     trace := trace w |}.

(** [instance.current], dereferenced *)
Definition current (w : World) : option Map :=
  match instance w with
  | Some TheMap => Some (widget w)
  | None => None
  end.

(** [marker.setMap(null)] and [marker.setPosition(pos)] on marker [id] *)
Definition setMapNull (id : nat) (w : World) : World :=
  record [SetMapNull id]
    (set_markers
       (alter (λ m, {| position := position m; onMap := false |}) id (markers w)) w).

Definition setPosition (id : nat) (pos : LatLngLiteral) (w : World) : World :=
  record [SetPosition id pos]
    (set_markers
       (alter (λ m, {| position := pos; onMap := onMap m |}) id (markers w)) w).

(** [new google.maps.Marker({ position: pos, map: instance.current, ... })] *)
Definition newMarker (pos : LatLngLiteral) (w : World) : nat * World :=
  let id := length (markers w) in
  (id, record [NewMarker id pos]
         (set_markers (markers w ++ [{| position := pos; onMap := true |}]) w)).

(** [navigator.geolocation.getCurrentPosition(updateUserLocation, ...)] *)
Definition getCurrentPosition (w : World) : World :=
  record [GetCurrentPosition] (set_pendingFixes (S (pendingFixes w)) w).

(** [navigator.geolocation.watchPosition(updateUserLocation, ...)] *)
Definition watchPosition (w : World) : nat * World :=
  let watchId := nextWatchId w in
  (watchId,
   record [WatchPosition watchId]
     (set_nextWatchId (S watchId) (set_watches (watchId :: watches w) w))).

(** [navigator.geolocation.clearWatch(watchId)] *)
Definition clearWatch (watchId : nat) (w : World) : World :=
  record [ClearWatch watchId]
    (set_watches (filter (λ i, i ≠ watchId) (watches w)) w).

Section Component.
Context `{Utils} `{Config}.

(** The [options] memo: [Object.assign(DEFAULT_OPTIONS, {...}, provideOptions)]
    writes into the module-level object and returns that same object. *)
Definition useMemo_options (w : World) : World :=
  set_defaultOptions
    (default ∅ (provideOptions (props w))
     ∪ (computedOptions (props w) ∪ defaultOptions w)) w.

(** The memo holds the reference it was returned. *)
Definition options (w : World) : gmap string value := defaultOptions w.

Definition useMemo_deltaRadio (w : World) : World :=
  set_deltaRadio
    (div (startField Region.latitudeDelta (props w))
         (startField Region.longitudeDelta (props w))) w.

Definition getCamera (w : World) : Camera.t :=
  let center := current w ≫= getCenter in
  {| Camera.center :=
       {| LatLng.latitude := default zero (lat <$> center);
          LatLng.longitude := default zero (lng <$> center) |};
     Camera.pitch := Some (default zero (current w ≫= getTilt));
     Camera.altitude := Some zero;
     Camera.heading := Some (default zero (current w ≫= getHeading));
     Camera.zoom := Some (default 0 (current w ≫= getZoom)) |}.

Definition animateCamera (c : Camera.t) (w : World) : World :=
  match current w with
  | Some map =>
      set_widget
        (moveCamera
           {| CameraOptions.center :=
                {| lat := LatLng.latitude (Camera.center c);
                   lng := LatLng.longitude (Camera.center c) |};
              CameraOptions.pitch := Camera.pitch c;
              CameraOptions.heading := Camera.heading c;
              CameraOptions.altitude := Camera.altitude c;
              CameraOptions.zoom := Camera.zoom c |} map) w
  | None => w
  end.

Definition setCamera (c : Camera.t) (w : World) : World :=
  match current w with
  | Some map =>
      set_widget
        (moveCamera
           {| CameraOptions.center :=
                {| lat := LatLng.latitude (Camera.center c);
                   lng := LatLng.longitude (Camera.center c) |};
              CameraOptions.pitch := Camera.pitch c;
              CameraOptions.heading := Camera.heading c;
              CameraOptions.altitude := Camera.altitude c;
              CameraOptions.zoom := Camera.zoom c |} map) w
  | None => w
  end.

Definition animateToRegion (region : Region.t) (w : World) : World :=
  match current w with
  | Some map =>
      set_widget
        (panTo {| lat := Region.latitude region;
                  lng := Region.longitude region |} map) w
  | None => w
  end.

(** The body of [useUpdateEffect(..., [region])]; [region!] on an absent
    region throws, which is [None]. *)
Definition regionEffect (w : World) : option World :=
  match region (props w) with
  | None => None
  | Some region =>
      Some (setZoom (calcZoom (Region.longitude region))
              (setCenter {| lat := Region.latitude region;
                            lng := Region.longitude region |} w))
  end.

(** The clean-up of the [useEffect(..., [])] that guards the marker. *)
Definition markerCleanup (w : World) : World :=
  match userLocationMarker w with
  | Some id => set_userLocationMarker None (setMapNull id w)
  | None => w
  end.

(** The success callback both geolocation requests are given. *)
Definition updateUserLocation (pos : LatLngLiteral) (w : World) : World :=
  match userLocationMarker w, instance w with
  | None, Some _ =>
      let '(id, w) := newMarker pos w in
      set_userLocationMarker (Some id) w
  | Some id, _ => setPosition id pos w
  | None, None => w
  end.

Definition handleError (w : World) : World := w.

(** The body of [useEffect(..., [showsUserLocation, mapLoaded])]; the
    clean-up it returns is left in [watchCleanup]. *)
Definition userLocationEffect (w : World) : World :=
  if negb (default false (showsUserLocation (props w))) || negb (geolocation w)
  then
    set_watchCleanup None
      match userLocationMarker w with
      | Some id => set_userLocationMarker None (setMapNull id w)
      | None => w
      end
  else if negb (mapLoaded w) || negb (bool_decide (is_Some (instance w)))
  then set_watchCleanup None w
  else
    let w := getCurrentPosition w in
    let '(watchId, w) := watchPosition w in
    set_watchCleanup (Some watchId) w.

(** The clean-up the location effect returned last, if it returned one. *)
Definition runWatchCleanup (w : World) : World :=
  match watchCleanup w with
  | Some watchId => set_watchCleanup None (clearWatch watchId w)
  | None => w
  end.

(** The location effect runs again: first the previous clean-up. *)
Definition rerunUserLocationEffect (w : World) : World :=
  userLocationEffect (runWatchCleanup w).

(** The component is torn down: the clean-ups run in the order of their
    effects. *)
Definition unmount (w : World) : World :=
  set_mounted false (runWatchCleanup (markerCleanup w)).

(** The load handler.  Of the locate-me button only its creation is
    kept: its listeners need the DOM and no property below is about
    them. *)
Definition onLoad (w : World) : World :=
  let w := set_instance (Some TheMap) w in
  let w := setMapLoaded true w in
  let w :=
    if default false (showsMyLocationButton (props w))
    then set_locationButtonRef true w else w in
  emit (optcall (onMapReady (props w)) MapReady) w.

(** [zoom === null] never holds: [instance.current?.getZoom()] is a
    number or undefined, so the converter is called in both cases. *)
Definition getCurrentRegion (w : World) : Region.t :=
  let zoom := current w ≫= getZoom in
  let center := current w ≫= getCenter in
  let delta := Some (zoomReverseDelta zoom (deltaRadio w)) in
  {| Region.latitude := default zero (lat <$> center);
     Region.latitudeDelta := default zero (Delta.latitudeDelta <$> delta);
     Region.longitude := default zero (lng <$> center);
     Region.longitudeDelta := default zero (Delta.longitudeDelta <$> delta) |}.

Definition onChangeComplete (w : World) : World :=
  let _region := getCurrentRegion w in
  let w := emit (optcall (onRegionChange (props w)) (RegionChange _region gesture)) w in
  emit (optcall (onRegionChangeComplete (props w))
          (RegionChangeComplete _region gesture)) w.

Definition onZoomChanged (w : World) : World :=
  match instance w with
  | None => w
  | Some _ => onChangeComplete w
  end.

Definition onIdle (w : World) : World :=
  if negb (hasIdleTriggerd w) then set_hasIdleTriggerd true w
  else onChangeComplete w.

Definition onDrag (w : World) : World :=
  let _region := getCurrentRegion w in
  emit (optcall (onRegionChange (props w)) (RegionChange _region gesture)) w.

Definition onClick (w : World) : World := w.

Definition onDblClick (w : World) : World := w.

(** The first render and the effects that follow it (the update effect
    skips the first render). *)
Definition mount (p : Props) (map : Map) (hasGeolocation : bool) : World :=
  let w :=
    {| defaultOptions := DEFAULT_OPTIONS; props := p; instance := None;
       locationButtonRef := false; userLocationMarker := None;
       mapLoaded := false; hasIdleTriggerd := false;
       center := {| lat := startField Region.latitude p;
                    lng := startField Region.longitude p |};
       zoom := calcZoom (startField Region.longitudeDelta p);
       deltaRadio := zero; watchCleanup := None; mounted := true;
       widget := map; markers := []; geolocation := hasGeolocation;
       pendingFixes := 0; watches := []; nextWatchId := 0%nat; overlay := [];
       trace := [] |} in
  userLocationEffect (useMemo_deltaRadio (useMemo_options w)).

(** A later render with props [p]: the memos whose dependencies changed
    are recomputed; then the clean-ups of the effects whose dependencies
    changed run, then the bodies of those effects in the order they are
    declared.  An effect that throws tears the component down. *)
Definition rerender (p : Props) (w : World) : World :=
  let old := props w in
  let shows q := default false (showsUserLocation q) in
  let w := set_props p w in
  let w := if decide (optionDeps old = optionDeps p) then w
           else useMemo_options w in
  let w := if decide (region old = region p) then w else useMemo_deltaRadio w in
  let w := if decide (shows old = shows p) then w else runWatchCleanup w in
  match (if decide (region old = region p) then Some w else regionEffect w) with
  | Some w => if decide (shows old = shows p) then w else userLocationEffect w
  | None => unmount w
  end.

(** What can happen to the component and around it. *)
Inductive event : Type :=
| Rerender (p : Props)
| Load
| ZoomChanged
| Idle
| Drag
| Click
| DblClick
| Moved (c : option LatLngLiteral) (z : option Z) (t h : option number)
| AnimateCamera (c : Camera.t)
| SetCamera (c : Camera.t)
| AnimateToRegion (r : Region.t)
| FixOnce (pos : LatLngLiteral)
| FailOnce
| FixWatch (watchId : nat) (pos : LatLngLiteral)
| FailWatch (watchId : nat)
| Unmount.

(** The widget's events and the caller reach a mounted component only;
    an answer of the geolocation service (a position or a failure)
    reaches the callback it was given whenever the request is still
    open, mounted or not: a one-shot request until it is answered, a
    watch until it is cleared. *)
Definition step (w : World) (e : event) : World :=
  match e with
  | FixOnce pos =>
      match pendingFixes w with
      | S n => updateUserLocation pos (set_pendingFixes n w)
      | O => w
      end
  | FailOnce =>
      match pendingFixes w with
      | S n => handleError (set_pendingFixes n w)
      | O => w
      end
  | FixWatch watchId pos =>
      if decide (watchId ∈ watches w) then updateUserLocation pos w else w
  | FailWatch watchId =>
      if decide (watchId ∈ watches w) then handleError w else w
  | _ =>
      if negb (mounted w) then w else
      match e with
      | Rerender p => rerender p w
      | Load =>
          let loaded := mapLoaded w in
          let w := onLoad w in
          if loaded then w else rerunUserLocationEffect w
      | ZoomChanged => onZoomChanged w
      | Idle => onIdle w
      | Drag => onDrag w
      | Click => onClick w
      | DblClick => onDblClick w
      | Moved c z t h => set_widget (moved c z t h (widget w)) w
      | AnimateCamera c => animateCamera c w
      | SetCamera c => setCamera c w
      | AnimateToRegion r => animateToRegion r w
      | Unmount => unmount w
      | _ => w
      end
  end.

Definition run (w : World) (es : list event) : World := foldl step w es.

End Component.

End MapViewB.

(** * The locate-me button of the second component *)

(** The button the load handler creates when showsMyLocationButton is
    set, with the listeners it is given.  A page is the component's
    world, the buttons pushed to the widget's controls (a load event
    pushes a new one each time) and, per button, whether its own
    getCurrentPosition request is unanswered. *)
Module LocateMe.

(** Of the element: the disabled flag and the style properties the
    listeners write. *)
Record Button : Type :=
  { disabled : bool;
    backgroundColor : string;
    transform : string;
    boxShadow : string;
    cursor : string;
    opacity : string }.

(** As the load handler leaves it ([style.cssText]). *)
Definition created : Button :=
  {| disabled := false; backgroundColor := "#fff"; transform := "scale(1)";
     boxShadow := "0 2px 6px rgba(0,0,0,0.3)"; cursor := "pointer";
     opacity := "" |}.

Record Page : Type :=
  { world : MapViewB.World;
    controls : list Button;
    asked : list nat }.

Definition set_world (w : MapViewB.World) (s : Page) : Page :=
  {| world := w; controls := controls s; asked := asked s |}.

Definition set_button (i : nat) (b : Button) (s : Page) : Page :=
  {| world := world s; controls := <[i := b]> (controls s); asked := asked s |}.

Definition set_asked (l : list nat) (s : Page) : Page :=
  {| world := world s; controls := controls s; asked := l |}.

(** A listener of button [i] runs on that button, if it exists. *)
Definition onButton (i : nat) (f : Button → Page → Page) (s : Page) : Page :=
  match controls s !! i with
  | Some b => f b s
  | None => s
  end.

Definition mouseenter (i : nat) : Page → Page :=
  onButton i (λ b s,
    if negb (disabled b)
    then set_button i
           {| disabled := disabled b; backgroundColor := "#f5f5f5";
              transform := "scale(1.1)";
              boxShadow := "0 4px 8px rgba(0,0,0,0.3)";
              cursor := cursor b; opacity := opacity b |} s
    else s).

Definition mouseleave (i : nat) : Page → Page :=
  onButton i (λ b s,
    if negb (disabled b)
    then set_button i
           {| disabled := disabled b; backgroundColor := "#fff";
              transform := "scale(1)";
              boxShadow := "0 2px 6px rgba(0,0,0,0.3)";
              cursor := cursor b; opacity := opacity b |} s
    else s).

Definition mousedown (i : nat) : Page → Page :=
  onButton i (λ b s,
    if negb (disabled b)
    then set_button i
           {| disabled := disabled b; backgroundColor := backgroundColor b;
              transform := "scale(0.95)"; boxShadow := boxShadow b;
              cursor := cursor b; opacity := opacity b |} s
    else s).

Definition mouseup (i : nat) : Page → Page :=
  onButton i (λ b s,
    if negb (disabled b)
    then set_button i
           {| disabled := disabled b; backgroundColor := backgroundColor b;
              transform := "scale(1.1)"; boxShadow := boxShadow b;
              cursor := cursor b; opacity := opacity b |} s
    else s).

(** [userLocationMarker.current?.getPosition()] *)
Definition markerPosition (w : MapViewB.World) : option LatLngLiteral :=
  MapViewB.userLocationMarker w ≫= λ id, position <$> MapViewB.markers w !! id.

(** [map.panTo(pos)], on the widget the load handler was given *)
Definition pan (pos : LatLngLiteral) (s : Page) : Page :=
  set_world (MapViewB.set_widget (panTo pos (MapViewB.widget (world s))) (world s)) s.

(** [disabled = true; cursor = 'wait'; opacity = '0.6'] *)
Definition busy (b : Button) : Button :=
  {| disabled := true; backgroundColor := backgroundColor b;
     transform := transform b; boxShadow := boxShadow b;
     cursor := "wait"; opacity := "0.6" |}.

(** [disabled = false; cursor = 'pointer'; opacity = '1'] *)
Definition ready (b : Button) : Button :=
  {| disabled := false; backgroundColor := backgroundColor b;
     transform := transform b; boxShadow := boxShadow b;
     cursor := "pointer"; opacity := "1" |}.

Definition click (i : nat) : Page → Page :=
  onButton i (λ b s,
    if disabled b then s
    else
      match markerPosition (world s) with
      | Some pos => pan pos s
      | None =>
          if negb (MapViewB.geolocation (world s)) then s
          else set_asked (asked s ++ [i]) (set_button i (busy b) s)
      end).

(** The two callbacks of the button's getCurrentPosition request. *)
Definition located (i : nat) (pos : LatLngLiteral) : Page → Page :=
  onButton i (λ b s, set_button i (ready b) (pan pos s)).

Definition locateFailed (i : nat) : Page → Page :=
  onButton i (λ b s, set_button i (ready b) s).

(** Removes the first occurrence of [i]: that request is answered. *)
Fixpoint answered (i : nat) (l : list nat) : list nat :=
  match l with
  | [] => []
  | j :: l' => if decide (i = j) then l' else j :: answered i l'
  end.

Inductive event : Type :=
| Component (e : MapViewB.event)
| MouseEnter (i : nat)
| MouseLeave (i : nat)
| MouseDown (i : nat)
| MouseUp (i : nat)
| Click (i : nat)
| Located (i : nat) (pos : LatLngLiteral)
| LocateFailed (i : nat).

Section Page.
Context `{Utils} `{Config}.

(** The load handler's part for the button: it is created and pushed
    when the prop is set, each time the handler runs. *)
Definition pushButton (s : Page) : Page :=
  if MapViewB.mounted (world s)
     && default false (showsMyLocationButton (MapViewB.props (world s)))
  then {| world := world s; controls := controls s ++ [created];
          asked := asked s |}
  else s.

Definition step (s : Page) (e : event) : Page :=
  match e with
  | Component MapViewB.Load =>
      set_world (MapViewB.step (world s) MapViewB.Load) (pushButton s)
  | Component e => set_world (MapViewB.step (world s) e) s
  | MouseEnter i => mouseenter i s
  | MouseLeave i => mouseleave i s
  | MouseDown i => mousedown i s
  | MouseUp i => mouseup i s
  | Click i => click i s
  | Located i pos =>
      if decide (i ∈ asked s) then located i pos (set_asked (answered i (asked s)) s)
      else s
  | LocateFailed i =>
      if decide (i ∈ asked s) then locateFailed i (set_asked (answered i (asked s)) s)
      else s
  end.

Definition start (p : Props) (map : Map) (geo : bool) : Page :=
  {| world := MapViewB.mount p map geo; controls := []; asked := [] |}.

Definition run (s : Page) (es : list event) : Page := foldl step s es.

End Page.

End LocateMe.

(** * The build script *)

Module Build.

(** What the script does to the world around it, in order. *)
Inductive Action : Type :=
| SpinnerStart (text : string)
| FsRemove (path : string)
| Execa (file : string) (args : list string)
| RequireExtractor
| LoadFileAndPrepare (configPath : string)
| ExtractorInvoke
| SpinnerSucceed
| SpinnerFail
| ConsoleError.

(** The calls of the try block; each can throw or reject. *)
Inductive Call : Type :=
| RemoveDist | Rollup | Require | Prepare | Invoke | RemovePackages.

#[export] Instance Call_eq_dec : EqDecision Call.
Proof. solve_decision. Defined.

(** [package.json], as far as the script reads it. *)
Record Package : Type := { name : string; skipBuild : bool }.

(** The try block: the actions so far and whether it is still running
    ([None] once a call has thrown).  [fails] tells which calls throw. *)
Definition Try : Type := (Call → bool) → list Action * option unit.

Definition ret : Try := λ _, ([], Some tt).

Definition call (c : Call) (a : Action) : Try :=
  λ fails, ([a], if fails c then None else Some tt).

Definition log (a : Action) : Try := λ _, ([a], Some tt).

Definition andThen (m k : Try) : Try :=
  λ fails,
    match m fails with
    | (done, Some _) => let '(more, r) := k fails in (done ++ more, r)
    | (done, None) => (done, None)
    end.

Notation "m ;;; k" := (andThen m k) (at level 100, k at level 200, right associativity).

(** [[`TARGET:${target}`, formats ? `FORMATS:${formats}` : ''].filter(Boolean).join(',')];
    a falsy [formats] is [None], a truthy one is how it prints. *)
Definition environment (target : string) (formats : option string) : string :=
  String.concat ","
    (filter (λ s, s ≠ "")
       ["TARGET:" +:+ target;
        match formats with
        | Some f => "FORMATS:" +:+ f
        | None => ""
        end]).

(** [path.resolve(name)] for a relative name without dots, in the
    working directory [cwd] (absolute, without a trailing slash, or the
    root). *)
Definition resolve (cwd name : string) : string :=
  if decide (cwd = "/") then "/" +:+ name else cwd +:+ "/" +:+ name.

Definition tryBlock (cwd target : string) (formats : option string) : Try :=
  (match formats with
   | None => call RemoveDist (FsRemove "..//dist")
   | Some _ => ret
   end) ;;;
  call Rollup (Execa "rollup" ["-c"; "--environment"; environment target formats]) ;;;
  call Require RequireExtractor ;;;
  call Prepare (LoadFileAndPrepare (resolve cwd "api-extractor.json")) ;;;
  call Invoke ExtractorInvoke ;;;
  call RemovePackages (FsRemove "dist/packages") ;;;
  log SpinnerSucceed.

Definition build (cwd target : string) (formats : option string)
    (pkg : Package) (fails : Call → bool) : list Action :=
  if skipBuild pkg then []
  else
    SpinnerStart ("Building " +:+ name pkg +:+ " " +:+ String (Ascii.ascii_of_nat 13) "")
    :: match tryBlock cwd target formats fails with
       | (done, Some _) => done
       | (done, None) => done ++ [SpinnerFail; ConsoleError]
       end.

End Build.

(** * Vocabulary of the properties *)

(** Which events are idle and load events. *)
Definition isIdleA (e : MapViewA.event) : bool :=
  match e with MapViewA.Idle => true | _ => false end.

Definition isLoadA (e : MapViewA.event) : bool :=
  match e with MapViewA.Load => true | _ => false end.

Definition isIdleB (e : MapViewB.event) : bool :=
  match e with MapViewB.Idle => true | _ => false end.

Definition isLoadB (e : MapViewB.event) : bool :=
  match e with MapViewB.Load => true | _ => false end.

(** Exactly the watch of the running effect is active, at any time. *)
Definition watchesAccounted (w : MapViewB.World) : Prop :=
  MapViewB.watches w = option_list (MapViewB.watchCleanup w).

(** * Concrete inputs *)

(** A configuration, props and a widget to run the components on. *)
Definition sampleConfig : Config :=
  {| DEFAULT_OPTIONS := {[ "disableDefaultUI" := VBool true ]};
     MAP_TYPE_MAPS := λ t,
       VStr match t with
            | standard => "roadmap"
            | satellite => "satellite"
            | hybrid => "hybrid"
            | terrain => "terrain"
            end;
     DEFAULT_REGION :=
       {| Region.latitude := Fin 0; Region.longitude := Fin 0;
          Region.latitudeDelta := Fin 90; Region.longitudeDelta := Fin 180 |} |}.

Definition sampleRegion : Region.t :=
  {| Region.latitude := Fin 10; Region.longitude := Fin 20;
     Region.latitudeDelta := Fin (1 # 10); Region.longitudeDelta := Fin (1 # 10) |}.

Definition sampleProps : Props :=
  {| region := None; initialRegion := Some sampleRegion;
     zoomEnabled := None; zoomControlEnabled := None; zoomTapEnabled := None;
     minZoomLevel := None; maxZoomLevel := None; mapType := None;
     customMapStyle := None; showsMyLocationButton := None;
     showsUserLocation := None; provideOptions := None;
     onMapReady := true; onRegionChange := true;
     onRegionChangeComplete := true |}.

Definition sampleMap : Map :=
  {| map_center := Some {| lat := Fin 10; lng := Fin 20 |};
     map_zoom := Some 12; map_tilt := Some (Fin 0);
     map_heading := Some (Fin 0); map_calls := [] |}.

(** The sample props with a controlled region. *)
Definition regionProps : Props :=
  {| region := Some sampleRegion; initialRegion := initialRegion sampleProps;
     zoomEnabled := None; zoomControlEnabled := None; zoomTapEnabled := None;
     minZoomLevel := None; maxZoomLevel := None; mapType := None;
     customMapStyle := None; showsMyLocationButton := None;
     showsUserLocation := None; provideOptions := None;
     onMapReady := true; onRegionChange := true;
     onRegionChangeComplete := true |}.

(** The sample props with the user's location shown. *)
Definition trackingProps : Props :=
  {| region := None; initialRegion := initialRegion sampleProps;
     zoomEnabled := None; zoomControlEnabled := None; zoomTapEnabled := None;
     minZoomLevel := None; maxZoomLevel := None; mapType := None;
     customMapStyle := None; showsMyLocationButton := None;
     showsUserLocation := Some true; provideOptions := None;
     onMapReady := true; onRegionChange := true;
     onRegionChangeComplete := true |}.

(** Three position fixes. *)
Definition here : LatLngLiteral := {| lat := Fin 48; lng := Fin 2 |}.
Definition there : LatLngLiteral := {| lat := Fin 49; lng := Fin 3 |}.
Definition late : LatLngLiteral := {| lat := Fin 50; lng := Fin 4 |}.

(** The sample props with an option of the caller's own. *)
Definition draggableProps : Props :=
  {| region := None; initialRegion := initialRegion sampleProps;
     zoomEnabled := Some false; zoomControlEnabled := None;
     zoomTapEnabled := None; minZoomLevel := None; maxZoomLevel := None;
     mapType := None; customMapStyle := None; showsMyLocationButton := None;
     showsUserLocation := None;
     provideOptions := Some {[ "draggable" := VBool false ]};
     onMapReady := true; onRegionChange := true;
     onRegionChangeComplete := true |}.

(** The sample props with the user's location and the locate-me button. *)
Definition locateProps : Props :=
  {| region := None; initialRegion := initialRegion sampleProps;
     zoomEnabled := None; zoomControlEnabled := None; zoomTapEnabled := None;
     minZoomLevel := None; maxZoomLevel := None; mapType := None;
     customMapStyle := None; showsMyLocationButton := Some true;
     showsUserLocation := Some true; provideOptions := None;
     onMapReady := true; onRegionChange := true;
     onRegionChangeComplete := true |}.



(** Two packages, and a run of the script in which rollup fails. *)
Definition samplePackage : Build.Package :=
  {| Build.name := "react-native-web-maps"; Build.skipBuild := false |}.

Definition skippedPackage : Build.Package :=
  {| Build.name := "react-native-web-maps"; Build.skipBuild := true |}.

Definition nothingFails : Build.Call → bool := λ _, false.

Definition rollupFails : Build.Call → bool :=
  λ c, match c with Build.Rollup => true | _ => false end.

(** Which events can make the component call its caller. *)
Definition reportsA (e : MapViewA.event) : bool :=
  match e with
  | MapViewA.Load | MapViewA.ZoomChanged | MapViewA.Idle | MapViewA.Drag => true
  | _ => false
  end.

Definition reportsB (e : MapViewB.event) : bool :=
  match e with
  | MapViewB.Load | MapViewB.ZoomChanged | MapViewB.Idle | MapViewB.Drag => true
  | _ => false
  end.

(** What the overlay's operations leave alone: center, zoom and the
    outward trace. *)
Definition coreB (w : MapViewB.World) : LatLngLiteral * Z * list Outward :=
  (MapViewB.center w, MapViewB.zoom w, MapViewB.trace w).

(** The keys of the object literal in the options memo. *)
Definition computedKeys : list string :=
  ["gestureHandling"; "zoomControl"; "disableDoubleClickZoom"; "mapTypeId";
   "styles"; "minZoom"; "maxZoom"].

(** The first component's memo cells hold what the current props give. *)
Definition memosFresh `{Utils} `{Config} (w : MapViewA.World) : Prop :=
  MapViewA.deltaRatio w
  = div (startField Region.latitudeDelta (MapViewA.props w))
        (startField Region.longitudeDelta (MapViewA.props w))
  ∧ MapViewA.options w
    = default ∅ (provideOptions (MapViewA.props w))
      ∪ (computedOptions (MapViewA.props w) ∪ DEFAULT_OPTIONS)
  ∧ MapViewA.defaultOptions w = DEFAULT_OPTIONS.

(** Every marker that is on the map is the one the ref holds, and the
    ref holds a marker that exists. *)
Definition markersTracked (w : MapViewB.World) : Prop :=
  (∀ i mk, MapViewB.markers w !! i = Some mk → onMap mk = true →
           MapViewB.userLocationMarker w = Some i)
  ∧ (∀ i, MapViewB.userLocationMarker w = Some i →
          is_Some (MapViewB.markers w !! i)).

(** The overlay has done nothing so far and holds nothing. *)
Definition overlayQuiet (w : MapViewB.World) : Prop :=
  MapViewB.overlay w = [] ∧ MapViewB.markers w = []
  ∧ MapViewB.watches w = [] ∧ MapViewB.pendingFixes w = 0%nat
  ∧ MapViewB.userLocationMarker w = None ∧ MapViewB.watchCleanup w = None.

(** A watch is held only by a mounted component that shows the user's
    location. *)
Definition watchOwned (w : MapViewB.World) : Prop :=
  is_Some (MapViewB.watchCleanup w) →
  default false (showsUserLocation (MapViewB.props w)) = true
  ∧ MapViewB.mounted w = true.

(** Every completion in a trace comes right after a change with the
    same region and details. *)
Definition completionsFollowChanges (t : list Outward) : Prop :=
  ∀ i r d, t !! i = Some (RegionChangeComplete r d) →
           ∃ j, i = S j ∧ t !! j = Some (RegionChange r d).

(** What one event can add to the trace when onRegionChange is supplied. *)
Inductive reportShape : list Outward → Prop :=
| shape_none : reportShape []
| shape_ready : reportShape [MapReady]
| shape_change (r : Region.t) (d : Details) : reportShape [RegionChange r d]
| shape_settle (r : Region.t) (d : Details) :
    reportShape [RegionChange r d; RegionChangeComplete r d].

(** The renders of an event sequence all supply onRegionChange. *)
Definition keepsOnRegionChangeA (es : list MapViewA.event) : bool :=
  forallb (λ e, match e with
                | MapViewA.Rerender q => onRegionChange q
                | _ => true
                end) es.

Definition keepsOnRegionChangeB (es : list MapViewB.event) : bool :=
  forallb (λ e, match e with
                | MapViewB.Rerender q => onRegionChange q
                | _ => true
                end) es.

(** The calls the try block of the build script makes when none
    throws, and the action of each. *)
Definition performed (formats : option string) : list Build.Call :=
  match formats with
  | None => [Build.RemoveDist]
  | Some _ => []
  end
  ++ [Build.Rollup; Build.Require; Build.Prepare; Build.Invoke;
      Build.RemovePackages].

Definition actionOf (cwd target : string) (formats : option string)
    (c : Build.Call) : Build.Action :=
  match c with
  | Build.RemoveDist => Build.FsRemove "..//dist"
  | Build.Rollup =>
      Build.Execa "rollup"
        ["-c"; "--environment"; Build.environment target formats]
  | Build.Require => Build.RequireExtractor
  | Build.Prepare =>
      Build.LoadFileAndPrepare (Build.resolve cwd "api-extractor.json")
  | Build.Invoke => Build.ExtractorInvoke
  | Build.RemovePackages => Build.FsRemove "dist/packages"
  end.

(** A locate-me button is disabled exactly while its own request is
    unanswered, no button has two requests open, and only buttons that
    exist have one. *)
Definition buttonsInSync (s : LocateMe.Page) : Prop :=
  NoDup (LocateMe.asked s)
  ∧ (∀ i b, LocateMe.controls s !! i = Some b →
            (LocateMe.disabled b = true ↔ i ∈ LocateMe.asked s))
  ∧ (∀ i, i ∈ LocateMe.asked s → is_Some (LocateMe.controls s !! i)).

(** The events of the button itself. *)
Definition isButtonEvent (e : LocateMe.event) : bool :=
  match e with
  | LocateMe.Component _ => false
  | _ => true
  end.

(** Of a list of calls, those that are made: up to and including the
    first that fails. *)
Fixpoint attempted (fails : Build.Call → bool) (cs : list Build.Call)
    : list Build.Call :=
  match cs with
  | [] => []
  | c :: cs' => c :: if fails c then [] else attempted fails cs'
  end.

Definition allPass (fails : Build.Call → bool) (cs : list Build.Call) : bool :=
  forallb (λ c, negb (fails c)) cs.

(** * Properties of the converter *)

Example deltaToZoom_tenth :
  Converter.deltaToZoom (Fin (1 # 10)) = 12.
Proof. reflexivity. Qed.

Lemma floor_log2_scaled (q : Q) (e : Z) :
  0 <= e →
  Qnum q = Z.pos (Qden q) * 2 ^ e →
  Converter.floor_log2 q = e.
Proof.
  intros He Hq. unfold Converter.floor_log2. rewrite Hq.
  rewrite Z.log2_mul_pow2 by lia.
  replace (e + Z.log2 (Z.pos (Qden q)) - Z.log2 (Z.pos (Qden q))) with e by lia.
  rewrite Z.max_r, Z.max_l by lia.
  by rewrite Z.pow_0_r, Z.mul_1_r, Z.leb_refl.
Qed.

Lemma round_log2_pow2 (z : Z) :
  0 <= z →
  Converter.round_log2
    (Converter.referenceWorldWidth
     / (Converter.referenceWorldWidth / Converter.pow2 z)) = z.
Proof.
  intros Hz. unfold Converter.pow2, Converter.round_log2.
  rewrite (proj2 (Z.leb_le 0 z)) by done.
  pose proof (Z.pow_pos_nonneg 2 z ltac:(lia) Hz) as Hpos.
  destruct (2 ^ z) as [|p|p] eqn:Hp; try lia.
  rewrite (floor_log2_scaled _ (2 * z)); [ | lia | ].
  - rewrite Z.mul_comm, Z.div_add_l by lia. apply Z.add_0_r.
  - change (Qnum _) with (Z.pos (360 * (1 * p)) * Z.pos (360 * (1 * p))).
    change (Z.pos (Qden _)) with (Z.pos (1 * 360 * (1 * 360))).
    replace (2 ^ (2 * z)) with (2 ^ z * 2 ^ z)
      by (rewrite <- Z.pow_add_r by lia; f_equal; lia).
    rewrite Hp. lia.
Qed.

Lemma pow2_positive (z : Z) : 0 <= z → (0 < Converter.pow2 z)%Q.
Proof.
  intros Hz. unfold Converter.pow2.
  rewrite (proj2 (Z.leb_le 0 z)) by done.
  pose proof (Z.pow_pos_nonneg 2 z ltac:(lia) Hz).
  unfold Qlt, inject_Z. cbn [Qnum Qden]. lia.
Qed.

(** C6: a zoom level of the supported range survives the conversion to
    deltas and back, whatever the positive delta ratio:
    deltaToZoom(zoomToDelta(z, r).longitudeDelta) = z. *)
Theorem converter_round_trip (z : Z) (r : Q) :
  Converter.minZoom <= z <= Converter.maxZoom →
  (0 < r)%Q →
  Converter.deltaToZoom
    (Delta.longitudeDelta (Converter.zoomToDelta (Some z) (Fin r))) = z.
Proof.
  unfold Converter.minZoom, Converter.maxZoom. intros Hz _.
  cbn [Converter.zoomToDelta Delta.longitudeDelta Converter.deltaToZoom].
  assert (Hpos : (0 < Converter.referenceWorldWidth / Converter.pow2 z)%Q).
  { apply Qlt_shift_div_l; [by apply pow2_positive; lia | reflexivity]. }
  destruct (Qle_bool _ 0) eqn:Hle.
  - apply Qle_bool_iff in Hle. apply Qlt_not_le in Hpos. contradiction.
  - rewrite round_log2_pow2 by lia.
    unfold Converter.clamp, Converter.minZoom, Converter.maxZoom. lia.
Qed.

Lemma converter_round_trip_witness :
  Converter.deltaToZoom
    (Delta.longitudeDelta (Converter.zoomToDelta (Some 13) (Fin (3 # 4)))) = 13.
Proof.
  apply converter_round_trip.
  - unfold Converter.minZoom, Converter.maxZoom. lia.
  - reflexivity.
Defined.

(** * The event mediator *)

(** Proof steps shared by the case analyses over handlers. *)
Ltac crush_step :=
  repeat first
    [ progress (cbn in *)
    | progress simplify_eq
    | match goal with
      | |- context [decide ?P] => destruct (decide P)
      | |- context [match ?x with _ => _ end] => destruct x eqn:?
      | H : context [match ?x with _ => _ end] |- _ => destruct x eqn:?
      end ];
  try done.

Ltac unfold_A :=
  unfold MapViewA.rerender, MapViewA.onLoad, MapViewA.onZoomChanged,
    MapViewA.onIdle, MapViewA.onDrag, MapViewA.onClick, MapViewA.onDblClick,
    MapViewA.onChangeComplete, MapViewA.animateCamera, MapViewA.setCamera,
    MapViewA.animateToRegion, MapViewA.regionEffect, MapViewA.current,
    MapViewA.useMemo_options, MapViewA.useMemo_deltaRatio in *.

Ltac unfold_B :=
  repeat progress
  unfold MapViewB.rerender, MapViewB.onLoad, MapViewB.onZoomChanged,
    MapViewB.onIdle, MapViewB.onDrag, MapViewB.onClick, MapViewB.onDblClick,
    MapViewB.onChangeComplete, MapViewB.animateCamera, MapViewB.setCamera,
    MapViewB.animateToRegion, MapViewB.regionEffect, MapViewB.current,
    MapViewB.useMemo_options, MapViewB.useMemo_deltaRadio,
    MapViewB.rerunUserLocationEffect, MapViewB.userLocationEffect,
    MapViewB.runWatchCleanup, MapViewB.unmount, MapViewB.markerCleanup,
    MapViewB.updateUserLocation, MapViewB.handleError, MapViewB.setPosition,
    MapViewB.setMapNull, MapViewB.newMarker, MapViewB.getCurrentPosition,
    MapViewB.watchPosition, MapViewB.clearWatch in *.

Section Mediator.
Context `{Utils} `{Config}.

Lemma A_step_hasIdleTriggerd (w : MapViewA.World) (e : MapViewA.event) :
  MapViewA.hasIdleTriggerd (MapViewA.step w e)
  = MapViewA.hasIdleTriggerd w || isIdleA e.
Proof.
  destruct e; cbn; unfold_A; crush_step;
    destruct (MapViewA.hasIdleTriggerd w); done.
Qed.

Lemma A_step_instance (w : MapViewA.World) (e : MapViewA.event) :
  MapViewA.instance (MapViewA.step w e)
  = if isLoadA e then Some TheMap else MapViewA.instance w.
Proof. destruct e; cbn; unfold_A; crush_step. Qed.

Lemma A_run_hasIdleTriggerd (w : MapViewA.World) (es : list MapViewA.event) :
  MapViewA.hasIdleTriggerd (MapViewA.run w es)
  = MapViewA.hasIdleTriggerd w || existsb isIdleA es.
Proof.
  revert w. induction es as [|e es IH]; intros w; cbn.
  - by rewrite orb_false_r.
  - unfold MapViewA.run in IH. rewrite IH, A_step_hasIdleTriggerd.
    by rewrite orb_assoc.
Qed.

Lemma A_run_instance (w : MapViewA.World) (es : list MapViewA.event) :
  MapViewA.instance (MapViewA.run w es)
  = if existsb isLoadA es then Some TheMap else MapViewA.instance w.
Proof.
  revert w. induction es as [|e es IH]; intros w; cbn; [done|].
  unfold MapViewA.run in IH. rewrite IH, A_step_instance.
  destruct (isLoadA e), (existsb isLoadA es); done.
Qed.

Lemma A_onChangeComplete_trace (w : MapViewA.World) :
  MapViewA.trace (MapViewA.onChangeComplete w)
  = MapViewA.trace w
    ++ optcall (onRegionChange (MapViewA.props w))
         (RegionChange (MapViewA.getCurrentRegion w) gesture)
    ++ optcall (onRegionChangeComplete (MapViewA.props w))
         (RegionChangeComplete (MapViewA.getCurrentRegion w) gesture).
Proof. unfold MapViewA.onChangeComplete. cbn. by rewrite <- app_assoc. Qed.

Lemma A_mount_refs (p : Props) (m : Map) :
  MapViewA.instance (MapViewA.mount p m) = None
  ∧ MapViewA.hasIdleTriggerd (MapViewA.mount p m) = false.
Proof. done. Qed.

Lemma B_step_unmounted (w : MapViewB.World) (e : MapViewB.event) :
  MapViewB.mounted w = false → MapViewB.mounted (MapViewB.step w e) = false.
Proof.
  intros Hm. destruct e; cbn; rewrite ?Hm; cbn; try done;
    unfold_B; crush_step.
Qed.

Lemma B_step_hasIdleTriggerd (w : MapViewB.World) (e : MapViewB.event) :
  MapViewB.mounted w = true →
  MapViewB.hasIdleTriggerd (MapViewB.step w e)
  = MapViewB.hasIdleTriggerd w || isIdleB e.
Proof.
  intros Hm. destruct e; cbn; rewrite ?Hm; cbn; unfold_B; crush_step;
    destruct (MapViewB.hasIdleTriggerd w); done.
Qed.

Lemma B_step_instance (w : MapViewB.World) (e : MapViewB.event) :
  MapViewB.mounted w = true →
  MapViewB.instance (MapViewB.step w e)
  = if isLoadB e then Some TheMap else MapViewB.instance w.
Proof.
  intros Hm. destruct e; cbn; rewrite ?Hm; cbn; unfold_B; crush_step.
Qed.

Lemma B_run_mounted (w : MapViewB.World) (es : list MapViewB.event) :
  MapViewB.mounted (MapViewB.run w es) = true →
  MapViewB.mounted w = true
  ∧ MapViewB.hasIdleTriggerd (MapViewB.run w es)
    = MapViewB.hasIdleTriggerd w || existsb isIdleB es
  ∧ MapViewB.instance (MapViewB.run w es)
    = if existsb isLoadB es then Some TheMap else MapViewB.instance w.
Proof.
  revert w. induction es as [|e es IH]; intros w; cbn.
  - intros ->. by rewrite orb_false_r.
  - intros Hm. destruct (IH _ Hm) as (Hs & Hi & Hl).
    assert (Hw : MapViewB.mounted w = true).
    { destruct (MapViewB.mounted w) eqn:E; [done|].
      by rewrite (B_step_unmounted _ e E) in Hs. }
    unfold MapViewB.run in Hi, Hl.
    rewrite Hi, Hl, B_step_hasIdleTriggerd, B_step_instance by done.
    split_and!; [done | by rewrite orb_assoc |].
    destruct (isLoadB e), (existsb isLoadB es); done.
Qed.

Lemma B_onChangeComplete_trace (w : MapViewB.World) :
  MapViewB.trace (MapViewB.onChangeComplete w)
  = MapViewB.trace w
    ++ optcall (onRegionChange (MapViewB.props w))
         (RegionChange (MapViewB.getCurrentRegion w) gesture)
    ++ optcall (onRegionChangeComplete (MapViewB.props w))
         (RegionChangeComplete (MapViewB.getCurrentRegion w) gesture).
Proof. unfold MapViewB.onChangeComplete. cbn. by rewrite <- app_assoc. Qed.

Lemma B_mount_refs (p : Props) (m : Map) (geo : bool) :
  MapViewB.instance (MapViewB.mount p m geo) = None
  ∧ MapViewB.hasIdleTriggerd (MapViewB.mount p m geo) = false
  ∧ MapViewB.mounted (MapViewB.mount p m geo) = true.
Proof. unfold MapViewB.mount. unfold_B. crush_step. Qed.

End Mediator.

Section MediatorClaims.
Context `{Utils} `{Config}.

(** C2: whatever happened since the first render, the first idle event
    the handler receives calls nothing outward, and every later one calls
    onRegionChange once and then onRegionChangeComplete once (both
    supplied), in both components. *)
Theorem idle_suppression (p : Props) (map : Map) (geo : bool)
    (esA : list MapViewA.event) (esB : list MapViewB.event) :
  let wA := MapViewA.run (MapViewA.mount p map) esA in
  let wB := MapViewB.run (MapViewB.mount p map geo) esB in
  (existsb isIdleA esA = false →
   MapViewA.trace (MapViewA.step wA MapViewA.Idle) = MapViewA.trace wA)
  ∧ (existsb isIdleA esA = true →
     onRegionChange (MapViewA.props wA) = true →
     onRegionChangeComplete (MapViewA.props wA) = true →
     MapViewA.trace (MapViewA.step wA MapViewA.Idle)
     = MapViewA.trace wA
       ++ [RegionChange (MapViewA.getCurrentRegion wA) gesture;
           RegionChangeComplete (MapViewA.getCurrentRegion wA) gesture])
  ∧ (MapViewB.mounted wB = true →
     existsb isIdleB esB = false →
     MapViewB.trace (MapViewB.step wB MapViewB.Idle) = MapViewB.trace wB)
  ∧ (MapViewB.mounted wB = true →
     existsb isIdleB esB = true →
     onRegionChange (MapViewB.props wB) = true →
     onRegionChangeComplete (MapViewB.props wB) = true →
     MapViewB.trace (MapViewB.step wB MapViewB.Idle)
     = MapViewB.trace wB
       ++ [RegionChange (MapViewB.getCurrentRegion wB) gesture;
           RegionChangeComplete (MapViewB.getCurrentRegion wB) gesture]).
Proof.
  intros wA wB.
  pose proof (A_run_hasIdleTriggerd (MapViewA.mount p map) esA) as HA.
  change (MapViewA.hasIdleTriggerd (MapViewA.mount p map)) with false in HA.
  fold wA in HA.
  change (MapViewA.step wA MapViewA.Idle) with (MapViewA.onIdle wA).
  split_and!.
  - intros E. rewrite E in HA. unfold MapViewA.onIdle. by rewrite HA.
  - intros E Hrc Hrcc. rewrite E in HA. unfold MapViewA.onIdle.
    rewrite HA. cbn [negb orb].
    by rewrite A_onChangeComplete_trace, Hrc, Hrcc.
  - intros Hm E. destruct (B_run_mounted _ _ Hm) as (_ & HB & _).
    rewrite (proj1 (proj2 (B_mount_refs p map geo))) in HB.
    fold wB in HB, Hm. rewrite E in HB.
    unfold MapViewB.step. rewrite Hm. cbn [negb].
    unfold MapViewB.onIdle. by rewrite HB.
  - intros Hm E Hrc Hrcc. destruct (B_run_mounted _ _ Hm) as (_ & HB & _).
    rewrite (proj1 (proj2 (B_mount_refs p map geo))) in HB.
    fold wB in HB, Hm. rewrite E in HB.
    unfold MapViewB.step. rewrite Hm. cbn [negb].
    unfold MapViewB.onIdle. rewrite HB. cbn [negb orb].
    by rewrite B_onChangeComplete_trace, Hrc, Hrcc.
Qed.

(** C3: a zoom-changed event that arrives before any load event calls
    nothing outward; once a load event has recorded the widget, every
    zoom-changed event calls onRegionChange and onRegionChangeComplete
    (both supplied), in both components. *)
Theorem zoom_changed_needs_load (p : Props) (map : Map) (geo : bool)
    (esA : list MapViewA.event) (esB : list MapViewB.event) :
  let wA := MapViewA.run (MapViewA.mount p map) esA in
  let wB := MapViewB.run (MapViewB.mount p map geo) esB in
  (existsb isLoadA esA = false →
   MapViewA.trace (MapViewA.step wA MapViewA.ZoomChanged) = MapViewA.trace wA)
  ∧ (existsb isLoadA esA = true →
     onRegionChange (MapViewA.props wA) = true →
     onRegionChangeComplete (MapViewA.props wA) = true →
     MapViewA.trace (MapViewA.step wA MapViewA.ZoomChanged)
     = MapViewA.trace wA
       ++ [RegionChange (MapViewA.getCurrentRegion wA) gesture;
           RegionChangeComplete (MapViewA.getCurrentRegion wA) gesture])
  ∧ (MapViewB.mounted wB = true →
     existsb isLoadB esB = false →
     MapViewB.trace (MapViewB.step wB MapViewB.ZoomChanged) = MapViewB.trace wB)
  ∧ (MapViewB.mounted wB = true →
     existsb isLoadB esB = true →
     onRegionChange (MapViewB.props wB) = true →
     onRegionChangeComplete (MapViewB.props wB) = true →
     MapViewB.trace (MapViewB.step wB MapViewB.ZoomChanged)
     = MapViewB.trace wB
       ++ [RegionChange (MapViewB.getCurrentRegion wB) gesture;
           RegionChangeComplete (MapViewB.getCurrentRegion wB) gesture]).
Proof.
  intros wA wB.
  pose proof (A_run_instance (MapViewA.mount p map) esA) as HA.
  change (MapViewA.instance (MapViewA.mount p map)) with (@None MapRef) in HA.
  fold wA in HA.
  change (MapViewA.step wA MapViewA.ZoomChanged) with (MapViewA.onZoomChanged wA).
  split_and!.
  - intros E. rewrite E in HA. unfold MapViewA.onZoomChanged. by rewrite HA.
  - intros E Hrc Hrcc. rewrite E in HA. unfold MapViewA.onZoomChanged.
    rewrite HA. by rewrite A_onChangeComplete_trace, Hrc, Hrcc.
  - intros Hm E. destruct (B_run_mounted _ _ Hm) as (_ & _ & HB).
    rewrite (proj1 (B_mount_refs p map geo)) in HB.
    fold wB in HB, Hm. rewrite E in HB.
    unfold MapViewB.step. rewrite Hm. cbn [negb].
    unfold MapViewB.onZoomChanged. by rewrite HB.
  - intros Hm E Hrc Hrcc. destruct (B_run_mounted _ _ Hm) as (_ & _ & HB).
    rewrite (proj1 (B_mount_refs p map geo)) in HB.
    fold wB in HB, Hm. rewrite E in HB.
    unfold MapViewB.step. rewrite Hm. cbn [negb].
    unfold MapViewB.onZoomChanged. rewrite HB.
    by rewrite B_onChangeComplete_trace, Hrc, Hrcc.
Qed.

(** C4: every settle that is reported (a zoom-changed event once the
    widget is recorded, an idle event after the first) calls
    onRegionChange before onRegionChangeComplete, hands both the one
    region read at that moment, and marks both { isGesture: true }. *)
Theorem settle_order_and_payload
    (wA : MapViewA.World) (eA : MapViewA.event)
    (wB : MapViewB.World) (eB : MapViewB.event) :
  (eA = MapViewA.ZoomChanged ∧ is_Some (MapViewA.instance wA)
   ∨ eA = MapViewA.Idle ∧ MapViewA.hasIdleTriggerd wA = true →
   onRegionChange (MapViewA.props wA) = true →
   onRegionChangeComplete (MapViewA.props wA) = true →
   ∃ r : Region.t,
     r = MapViewA.getCurrentRegion wA
     ∧ MapViewA.trace (MapViewA.step wA eA)
       = MapViewA.trace wA
         ++ [RegionChange r {| isGesture := true |};
             RegionChangeComplete r {| isGesture := true |}])
  ∧ (MapViewB.mounted wB = true →
     eB = MapViewB.ZoomChanged ∧ is_Some (MapViewB.instance wB)
     ∨ eB = MapViewB.Idle ∧ MapViewB.hasIdleTriggerd wB = true →
     onRegionChange (MapViewB.props wB) = true →
     onRegionChangeComplete (MapViewB.props wB) = true →
     ∃ r : Region.t,
       r = MapViewB.getCurrentRegion wB
       ∧ MapViewB.trace (MapViewB.step wB eB)
         = MapViewB.trace wB
           ++ [RegionChange r {| isGesture := true |};
               RegionChangeComplete r {| isGesture := true |}]).
Proof.
  split.
  - intros Hev Hrc Hrcc. eexists; split; [reflexivity|].
    destruct Hev as [[-> [i Hi]] | [-> Hidle]]; cbn [MapViewA.step].
    + unfold MapViewA.onZoomChanged. rewrite Hi.
      by rewrite A_onChangeComplete_trace, Hrc, Hrcc.
    + unfold MapViewA.onIdle. rewrite Hidle. cbn [negb].
      by rewrite A_onChangeComplete_trace, Hrc, Hrcc.
  - intros Hm Hev Hrc Hrcc. eexists; split; [reflexivity|].
    destruct Hev as [[-> [i Hi]] | [-> Hidle]];
      unfold MapViewB.step; rewrite Hm; cbn [negb].
    + unfold MapViewB.onZoomChanged. rewrite Hi.
      by rewrite B_onChangeComplete_trace, Hrc, Hrcc.
    + unfold MapViewB.onIdle. rewrite Hidle. cbn [negb].
      by rewrite B_onChangeComplete_trace, Hrc, Hrcc.
Qed.

End MediatorClaims.

(** * The imperative camera handle *)

(** C8: animateCamera and setCamera do the same thing to every world:
    with the widget recorded, one moveCamera call whose center is the
    camera's center as { lat, lng } and whose other fields are the
    camera's, unchanged; without it, nothing.  In both components. *)
Theorem camera_moves_agree (c : Camera.t)
    (wA : MapViewA.World) (wB : MapViewB.World) :
  let target :=
    {| CameraOptions.center :=
         {| lat := LatLng.latitude (Camera.center c);
            lng := LatLng.longitude (Camera.center c) |};
       CameraOptions.pitch := Camera.pitch c;
       CameraOptions.heading := Camera.heading c;
       CameraOptions.altitude := Camera.altitude c;
       CameraOptions.zoom := Camera.zoom c |} in
  MapViewA.animateCamera c wA = MapViewA.setCamera c wA
  ∧ MapViewB.animateCamera c wB = MapViewB.setCamera c wB
  ∧ (is_Some (MapViewA.instance wA) →
     MapViewA.setCamera c wA
     = MapViewA.set_widget (moveCamera target (MapViewA.widget wA)) wA
     ∧ map_calls (MapViewA.widget (MapViewA.setCamera c wA))
       = map_calls (MapViewA.widget wA) ++ [MoveCamera target])
  ∧ (is_Some (MapViewB.instance wB) →
     MapViewB.setCamera c wB
     = MapViewB.set_widget (moveCamera target (MapViewB.widget wB)) wB
     ∧ map_calls (MapViewB.widget (MapViewB.setCamera c wB))
       = map_calls (MapViewB.widget wB) ++ [MoveCamera target])
  ∧ (MapViewA.instance wA = None → MapViewA.setCamera c wA = wA)
  ∧ (MapViewB.instance wB = None → MapViewB.setCamera c wB = wB).
Proof.
  intros target. split_and!; try reflexivity.
  - intros [[] Hi]. unfold MapViewA.setCamera, MapViewA.current. by rewrite Hi.
  - intros [[] Hi]. unfold MapViewB.setCamera, MapViewB.current. by rewrite Hi.
  - intros Hi. unfold MapViewA.setCamera, MapViewA.current. by rewrite Hi.
  - intros Hi. unfold MapViewB.setCamera, MapViewB.current. by rewrite Hi.
Qed.

(** C9: with the widget recorded, animateToRegion makes exactly one
    call on it, panTo with { lat: region.latitude, lng: region.longitude },
    and nothing else changes: not the widget's zoom, tilt or heading, not
    the component's own center and zoom, and nothing is called outward.
    Without the widget the call is dropped.  In both components. *)
Theorem animateToRegion_pans_only (r : Region.t)
    (wA : MapViewA.World) (wB : MapViewB.World) :
  let target := {| lat := Region.latitude r; lng := Region.longitude r |} in
  let wA' := MapViewA.animateToRegion r wA in
  let wB' := MapViewB.animateToRegion r wB in
  (is_Some (MapViewA.instance wA) →
   map_calls (MapViewA.widget wA')
   = map_calls (MapViewA.widget wA) ++ [PanTo target]
   ∧ getCenter (MapViewA.widget wA') = Some target
   ∧ getZoom (MapViewA.widget wA') = getZoom (MapViewA.widget wA)
   ∧ getTilt (MapViewA.widget wA') = getTilt (MapViewA.widget wA)
   ∧ getHeading (MapViewA.widget wA') = getHeading (MapViewA.widget wA)
   ∧ wA' = MapViewA.set_widget (MapViewA.widget wA') wA)
  ∧ (is_Some (MapViewB.instance wB) →
     map_calls (MapViewB.widget wB')
     = map_calls (MapViewB.widget wB) ++ [PanTo target]
     ∧ getCenter (MapViewB.widget wB') = Some target
     ∧ getZoom (MapViewB.widget wB') = getZoom (MapViewB.widget wB)
     ∧ getTilt (MapViewB.widget wB') = getTilt (MapViewB.widget wB)
     ∧ getHeading (MapViewB.widget wB') = getHeading (MapViewB.widget wB)
     ∧ wB' = MapViewB.set_widget (MapViewB.widget wB') wB)
  ∧ (MapViewA.instance wA = None → wA' = wA)
  ∧ (MapViewB.instance wB = None → wB' = wB).
Proof.
  intros target wA' wB'. subst wA' wB'. split_and!.
  - intros [[] Hi]. unfold MapViewA.animateToRegion, MapViewA.current.
    by rewrite Hi.
  - intros [[] Hi]. unfold MapViewB.animateToRegion, MapViewB.current.
    by rewrite Hi.
  - intros Hi. unfold MapViewA.animateToRegion, MapViewA.current. by rewrite Hi.
  - intros Hi. unfold MapViewB.animateToRegion, MapViewB.current. by rewrite Hi.
Qed.

(** * The viewport state holder and the reads *)

Section Viewport.
Context `{Utils} `{Config}.

(** In the first component a changed region overwrites center and zoom
    with the region's own center and the zoom of its longitude delta. *)
Lemma A_region_update (w : MapViewA.World) (p : Props) (r : Region.t) :
  region p = Some r →
  region (MapViewA.props w) ≠ region p →
  MapViewA.center (MapViewA.rerender p w)
  = {| lat := Region.latitude r; lng := Region.longitude r |}
  ∧ MapViewA.zoom (MapViewA.rerender p w) = calcZoom (Region.longitudeDelta r).
Proof.
  intros Hr Hne. unfold MapViewA.rerender.
  destruct (decide (region (MapViewA.props w) = region p)); [done|].
  unfold MapViewA.regionEffect.
  repeat match goal with
         | |- context [decide ?P] => destruct (decide P)
         end; cbn; rewrite Hr; done.
Qed.

(** The overlay's effect and its clean-up leave the viewport alone. *)
Lemma runWatchCleanup_viewport (w : MapViewB.World) :
  MapViewB.props (MapViewB.runWatchCleanup w) = MapViewB.props w
  ∧ MapViewB.center (MapViewB.runWatchCleanup w) = MapViewB.center w
  ∧ MapViewB.zoom (MapViewB.runWatchCleanup w) = MapViewB.zoom w.
Proof.
  unfold MapViewB.runWatchCleanup. by destruct (MapViewB.watchCleanup w).
Qed.

Lemma userLocationEffect_viewport (w : MapViewB.World) :
  MapViewB.center (MapViewB.userLocationEffect w) = MapViewB.center w
  ∧ MapViewB.zoom (MapViewB.userLocationEffect w) = MapViewB.zoom w.
Proof.
  unfold MapViewB.userLocationEffect.
  destruct (negb _ || negb _); [by destruct (MapViewB.userLocationMarker w)|].
  by destruct (negb _ || negb _).
Qed.

(** In the second component the zoom is taken from the region's
    longitude, not from its longitude delta. *)
Lemma B_region_update (w : MapViewB.World) (p : Props) (r : Region.t) :
  region p = Some r →
  region (MapViewB.props w) ≠ region p →
  MapViewB.center (MapViewB.rerender p w)
  = {| lat := Region.latitude r; lng := Region.longitude r |}
  ∧ MapViewB.zoom (MapViewB.rerender p w) = calcZoom (Region.longitude r).
Proof.
  intros Hr Hne. unfold MapViewB.rerender. cbv zeta beta.
  destruct (decide (region (MapViewB.props w) = region p)); [done|].
  set (w1 := if decide (optionDeps _ = optionDeps p) then _ else _).
  assert (H1 : MapViewB.props w1 = p) by (subst w1; by case_decide).
  clearbody w1.
  set (w2 := if decide (_ = _) then _ else MapViewB.runWatchCleanup _).
  assert (H2 : MapViewB.props w2 = p).
  { subst w2. case_decide; [done|].
    by rewrite (proj1 (runWatchCleanup_viewport _)). }
  clearbody w2. unfold MapViewB.regionEffect. rewrite H2, Hr.
  case_decide; [done|].
  destruct (userLocationEffect_viewport
              (MapViewB.setZoom (calcZoom (Region.longitude r))
                 (MapViewB.setCenter
                    {| lat := Region.latitude r; lng := Region.longitude r |}
                    w2))) as [-> ->].
  done.
Qed.

(** Before the widget is recorded the first component reads zeros. *)
Lemma A_reads_before_load (w : MapViewA.World) :
  MapViewA.instance w = None →
  MapViewA.getCamera w
  = {| Camera.center := {| LatLng.latitude := Fin 0; LatLng.longitude := Fin 0 |};
       Camera.pitch := Some (Fin 0); Camera.heading := Some (Fin 0);
       Camera.altitude := Some (Fin 0); Camera.zoom := Some 0 |}
  ∧ MapViewA.getCurrentRegion w
    = {| Region.latitude := Fin 0; Region.longitude := Fin 0;
         Region.latitudeDelta := Fin 0; Region.longitudeDelta := Fin 0 |}.
Proof.
  intros Hi. unfold MapViewA.getCamera, MapViewA.getCurrentRegion, MapViewA.current.
  by rewrite Hi.
Qed.

(** Before the widget is recorded the second component reads a zero
    camera, but its region carries the deltas the converter returns for
    an undefined zoom level. *)
Lemma B_reads_before_load (w : MapViewB.World) :
  MapViewB.instance w = None →
  MapViewB.getCamera w
  = {| Camera.center := {| LatLng.latitude := Fin 0; LatLng.longitude := Fin 0 |};
       Camera.pitch := Some (Fin 0); Camera.heading := Some (Fin 0);
       Camera.altitude := Some (Fin 0); Camera.zoom := Some 0 |}
  ∧ MapViewB.getCurrentRegion w
    = {| Region.latitude := Fin 0; Region.longitude := Fin 0;
         Region.latitudeDelta :=
           Delta.latitudeDelta (zoomReverseDelta None (MapViewB.deltaRadio w));
         Region.longitudeDelta :=
           Delta.longitudeDelta (zoomReverseDelta None (MapViewB.deltaRadio w)) |}.
Proof.
  intros Hi. unfold MapViewB.getCamera, MapViewB.getCurrentRegion, MapViewB.current.
  by rewrite Hi.
Qed.

(** Nothing the first component does writes to the shared defaults. *)
Lemma A_step_defaultOptions (w : MapViewA.World) (e : MapViewA.event) :
  MapViewA.defaultOptions (MapViewA.step w e) = MapViewA.defaultOptions w.
Proof. destruct e; cbn; unfold_A; crush_step. Qed.

Lemma A_run_defaultOptions (p : Props) (m : Map) (es : list MapViewA.event) :
  MapViewA.defaultOptions (MapViewA.run (MapViewA.mount p m) es) = DEFAULT_OPTIONS.
Proof.
  change DEFAULT_OPTIONS with (MapViewA.defaultOptions (MapViewA.mount p m)).
  generalize (MapViewA.mount p m). induction es as [|e es IH]; intros w; [done|].
  cbn. unfold MapViewA.run in IH. by rewrite IH, A_step_defaultOptions.
Qed.

(** The second component's memo leaves its result in the shared defaults. *)
Lemma B_useMemo_options_defaults (w : MapViewB.World) :
  MapViewB.defaultOptions (MapViewB.useMemo_options w)
  = default ∅ (provideOptions (MapViewB.props w))
    ∪ (computedOptions (MapViewB.props w) ∪ MapViewB.defaultOptions w).
Proof. done. Qed.

End Viewport.

(** * The location overlay *)

Section Overlay.
Context `{Utils} `{Config}.

(** The first fix, with the widget recorded and no marker yet, creates
    one marker at the reported position, on the map. *)
Lemma first_fix_creates_marker (w : MapViewB.World) (pos : LatLngLiteral) :
  MapViewB.userLocationMarker w = None →
  is_Some (MapViewB.instance w) →
  let w' := MapViewB.updateUserLocation pos w in
  MapViewB.markers w'
  = MapViewB.markers w ++ [{| position := pos; onMap := true |}]
  ∧ MapViewB.userLocationMarker w' = Some (length (MapViewB.markers w))
  ∧ MapViewB.overlay w'
    = MapViewB.overlay w ++ [MapViewB.NewMarker (length (MapViewB.markers w)) pos].
Proof.
  intros Hm [i Hi]. unfold MapViewB.updateUserLocation. by rewrite Hm, Hi.
Qed.

(** A fix that finds a marker moves that marker and creates none. *)
Lemma later_fix_repositions (w : MapViewB.World) (pos : LatLngLiteral) (id : nat) :
  MapViewB.userLocationMarker w = Some id →
  let w' := MapViewB.updateUserLocation pos w in
  length (MapViewB.markers w') = length (MapViewB.markers w)
  ∧ MapViewB.userLocationMarker w' = Some id
  ∧ position <$> MapViewB.markers w' !! id
    = (λ _, pos) <$> MapViewB.markers w !! id
  ∧ MapViewB.overlay w' = MapViewB.overlay w ++ [MapViewB.SetPosition id pos].
Proof.
  intros Hm. unfold MapViewB.updateUserLocation. rewrite Hm. cbn.
  split_and!; try done.
  - by rewrite length_alter.
  - rewrite list_lookup_alter_eq. by destruct (MapViewB.markers w !! id).
Qed.

(** Switching the feature off clears the watch of the running effect,
    takes the marker off the map and forgets it. *)
Lemma disable_removes_and_cancels (w : MapViewB.World) (p : Props) (watchId : nat) :
  region p = region (MapViewB.props w) →
  default false (showsUserLocation (MapViewB.props w)) = true →
  default false (showsUserLocation p) = false →
  MapViewB.watchCleanup w = Some watchId →
  let w' := MapViewB.rerender p w in
  (watchId ∉ MapViewB.watches w')
  ∧ MapViewB.watchCleanup w' = None
  ∧ MapViewB.userLocationMarker w' = None
  ∧ ∀ id, MapViewB.userLocationMarker w = Some id →
          onMap <$> MapViewB.markers w' !! id
          = (λ _, false) <$> MapViewB.markers w !! id.
Proof.
  intros Hr Hon Hoff Hc. unfold MapViewB.rerender. cbv zeta beta.
  destruct (decide (region (MapViewB.props w) = region p)); [|congruence].
  rewrite Hon, Hoff. destruct (decide (true = false)); [done|].
  assert (Hfilter : ∀ l : list nat, watchId ∉ filter (λ i, i ≠ watchId) l).
  { intros l Hin. apply list_elem_of_filter in Hin. by destruct Hin. }
  destruct (decide (optionDeps (MapViewB.props w) = optionDeps p));
    unfold MapViewB.runWatchCleanup;
    cbn; rewrite Hc; unfold MapViewB.userLocationEffect; cbn; rewrite Hoff; cbn;
    (destruct (MapViewB.userLocationMarker w) as [id|] eqn:Hm; cbn;
     split_and!; try done; try apply Hfilter;
     intros id' [= <-]; rewrite list_lookup_alter_eq;
     by destruct (MapViewB.markers w !! id)).
Qed.

Lemma runWatchCleanup_clears (w : MapViewB.World) :
  watchesAccounted w →
  MapViewB.watches (MapViewB.runWatchCleanup w) = []
  ∧ MapViewB.watchCleanup (MapViewB.runWatchCleanup w) = None.
Proof.
  unfold watchesAccounted, MapViewB.runWatchCleanup.
  destruct (MapViewB.watchCleanup w) as [i|] eqn:Hc; cbn; intros Hw; [|done].
  rewrite Hw. cbn. by rewrite decide_False by (intros Hne; by apply Hne).
Qed.

Lemma userLocationEffect_accounted (w : MapViewB.World) :
  MapViewB.watches w = [] → watchesAccounted (MapViewB.userLocationEffect w).
Proof.
  intros Hw. unfold watchesAccounted, MapViewB.userLocationEffect.
  destruct (negb _ || negb _); [by destruct (MapViewB.userLocationMarker w)|].
  destruct (negb _ || negb _); [done|]. cbn. by rewrite Hw.
Qed.

Lemma rerunUserLocationEffect_accounted (w : MapViewB.World) :
  watchesAccounted w → watchesAccounted (MapViewB.rerunUserLocationEffect w).
Proof.
  intros Hw. apply userLocationEffect_accounted.
  by apply runWatchCleanup_clears.
Qed.

Lemma markerCleanup_accounted (w : MapViewB.World) :
  watchesAccounted w → watchesAccounted (MapViewB.markerCleanup w).
Proof.
  unfold watchesAccounted, MapViewB.markerCleanup.
  by destruct (MapViewB.userLocationMarker w).
Qed.

Lemma unmount_accounted (w : MapViewB.World) :
  watchesAccounted w → watchesAccounted (MapViewB.unmount w).
Proof.
  intros Hw. apply markerCleanup_accounted, runWatchCleanup_clears in Hw.
  destruct Hw as [Hw Hc]. unfold watchesAccounted, MapViewB.unmount. cbn.
  by rewrite Hw, Hc.
Qed.

Lemma updateUserLocation_accounted (w : MapViewB.World) (pos : LatLngLiteral) :
  watchesAccounted w → watchesAccounted (MapViewB.updateUserLocation pos w).
Proof.
  unfold watchesAccounted, MapViewB.updateUserLocation.
  by destruct (MapViewB.userLocationMarker w), (MapViewB.instance w).
Qed.

Lemma rerender_accounted (w : MapViewB.World) (p : Props) :
  watchesAccounted w → watchesAccounted (MapViewB.rerender p w).
Proof.
  intros Hw. unfold MapViewB.rerender. cbv zeta beta.
  set (w1 := if decide (optionDeps _ = optionDeps p) then _ else _).
  assert (H1 : watchesAccounted w1) by (subst w1; by case_decide).
  set (w2 := if decide (region _ = region p) then w1 else _).
  assert (H2 : watchesAccounted w2) by (subst w2; by case_decide).
  clearbody w2. clear w1 H1.
  destruct (decide (default false (showsUserLocation (MapViewB.props w))
                    = default false (showsUserLocation p))) as [Hs|Hs].
  - destruct (decide (region (MapViewB.props w) = region p)); [done|].
    unfold MapViewB.regionEffect. destruct (region (MapViewB.props w2)); [done|].
    by apply unmount_accounted.
  - destruct (runWatchCleanup_clears _ H2) as [Hw3 Hc3].
    assert (H3 : watchesAccounted (MapViewB.runWatchCleanup w2))
      by (unfold watchesAccounted; by rewrite Hw3, Hc3).
    destruct (decide (region (MapViewB.props w) = region p)).
    + by apply userLocationEffect_accounted.
    + unfold MapViewB.regionEffect.
      destruct (region (MapViewB.props (MapViewB.runWatchCleanup w2))).
      * by apply userLocationEffect_accounted.
      * by apply unmount_accounted.
Qed.

Lemma onLoad_accounted (w : MapViewB.World) :
  watchesAccounted w → watchesAccounted (MapViewB.onLoad w).
Proof.
  unfold watchesAccounted, MapViewB.onLoad. cbn.
  by destruct (default false (showsMyLocationButton (MapViewB.props w))).
Qed.

Lemma B_step_watches (w : MapViewB.World) (e : MapViewB.event) :
  watchesAccounted w → watchesAccounted (MapViewB.step w e).
Proof.
  intros Hw.
  destruct e; cbn [MapViewB.step];
    try (destruct (negb (MapViewB.mounted w)); [done|]);
    try done.
  - by apply rerender_accounted.
  - cbv zeta. destruct (MapViewB.mapLoaded w); [by apply onLoad_accounted|].
    by apply rerunUserLocationEffect_accounted, onLoad_accounted.
  - unfold MapViewB.onZoomChanged. by destruct (MapViewB.instance w).
  - unfold MapViewB.onIdle. by destruct (negb _).
  - unfold MapViewB.animateCamera. by destruct (MapViewB.current w).
  - unfold MapViewB.setCamera. by destruct (MapViewB.current w).
  - unfold MapViewB.animateToRegion. by destruct (MapViewB.current w).
  - destruct (MapViewB.pendingFixes w); [done|].
    by apply updateUserLocation_accounted.
  - by destruct (MapViewB.pendingFixes w).
  - case_decide; [|done]. by apply updateUserLocation_accounted.
  - by case_decide.
  - by apply unmount_accounted.
Qed.

Lemma B_run_watches (p : Props) (m : Map) (geo : bool) (es : list MapViewB.event) :
  watchesAccounted (MapViewB.run (MapViewB.mount p m geo) es).
Proof.
  assert (Hstart : watchesAccounted (MapViewB.mount p m geo))
    by (by apply userLocationEffect_accounted).
  revert Hstart. generalize (MapViewB.mount p m geo).
  induction es as [|e es IH]; intros w Hw; [done|].
  cbn. apply IH. by apply B_step_watches.
Qed.

End Overlay.

(** * The components on concrete inputs *)

Section Samples.
#[local] Existing Instance Converter.utils.
#[local] Existing Instance sampleConfig.

Lemma idle_suppression_witness :
  let wA0 := MapViewA.run (MapViewA.mount sampleProps sampleMap)
               [MapViewA.Load] in
  let wA1 := MapViewA.run (MapViewA.mount sampleProps sampleMap)
               [MapViewA.Load; MapViewA.Idle] in
  let wB0 := MapViewB.run (MapViewB.mount sampleProps sampleMap true)
               [MapViewB.Load] in
  let wB1 := MapViewB.run (MapViewB.mount sampleProps sampleMap true)
               [MapViewB.Load; MapViewB.Idle] in
  MapViewA.trace (MapViewA.step wA0 MapViewA.Idle) = MapViewA.trace wA0
  ∧ MapViewA.trace (MapViewA.step wA1 MapViewA.Idle)
    = MapViewA.trace wA1
      ++ [RegionChange (MapViewA.getCurrentRegion wA1) gesture;
          RegionChangeComplete (MapViewA.getCurrentRegion wA1) gesture]
  ∧ MapViewB.trace (MapViewB.step wB0 MapViewB.Idle) = MapViewB.trace wB0
  ∧ MapViewB.trace (MapViewB.step wB1 MapViewB.Idle)
    = MapViewB.trace wB1
      ++ [RegionChange (MapViewB.getCurrentRegion wB1) gesture;
          RegionChangeComplete (MapViewB.getCurrentRegion wB1) gesture].
Proof.
  intros wA0 wA1 wB0 wB1.
  destruct (idle_suppression sampleProps sampleMap true
              [MapViewA.Load] [MapViewB.Load]) as (HA0 & _ & HB0 & _).
  destruct (idle_suppression sampleProps sampleMap true
              [MapViewA.Load; MapViewA.Idle] [MapViewB.Load; MapViewB.Idle])
    as (_ & HA1 & _ & HB1).
  split_and!.
  - apply HA0; reflexivity.
  - apply HA1; reflexivity.
  - apply HB0; reflexivity.
  - apply HB1; reflexivity.
Defined.

Lemma zoom_changed_needs_load_witness :
  let wA0 := MapViewA.run (MapViewA.mount sampleProps sampleMap) [] in
  let wA1 := MapViewA.run (MapViewA.mount sampleProps sampleMap)
               [MapViewA.Load] in
  let wB0 := MapViewB.run (MapViewB.mount sampleProps sampleMap true) [] in
  let wB1 := MapViewB.run (MapViewB.mount sampleProps sampleMap true)
               [MapViewB.Load] in
  MapViewA.trace (MapViewA.step wA0 MapViewA.ZoomChanged) = MapViewA.trace wA0
  ∧ MapViewA.trace (MapViewA.step wA1 MapViewA.ZoomChanged)
    = MapViewA.trace wA1
      ++ [RegionChange (MapViewA.getCurrentRegion wA1) gesture;
          RegionChangeComplete (MapViewA.getCurrentRegion wA1) gesture]
  ∧ MapViewB.trace (MapViewB.step wB0 MapViewB.ZoomChanged) = MapViewB.trace wB0
  ∧ MapViewB.trace (MapViewB.step wB1 MapViewB.ZoomChanged)
    = MapViewB.trace wB1
      ++ [RegionChange (MapViewB.getCurrentRegion wB1) gesture;
          RegionChangeComplete (MapViewB.getCurrentRegion wB1) gesture].
Proof.
  intros wA0 wA1 wB0 wB1.
  destruct (zoom_changed_needs_load sampleProps sampleMap true [] [])
    as (HA0 & _ & HB0 & _).
  destruct (zoom_changed_needs_load sampleProps sampleMap true
              [MapViewA.Load] [MapViewB.Load]) as (_ & HA1 & _ & HB1).
  split_and!.
  - apply HA0; reflexivity.
  - apply HA1; reflexivity.
  - apply HB0; reflexivity.
  - apply HB1; reflexivity.
Defined.

Lemma settle_order_and_payload_witness :
  let wA := MapViewA.run (MapViewA.mount sampleProps sampleMap)
              [MapViewA.Load; MapViewA.Idle] in
  let wB := MapViewB.run (MapViewB.mount sampleProps sampleMap true)
              [MapViewB.Load; MapViewB.Idle] in
  (∃ r : Region.t,
     r = MapViewA.getCurrentRegion wA
     ∧ MapViewA.trace (MapViewA.step wA MapViewA.Idle)
       = MapViewA.trace wA
         ++ [RegionChange r {| isGesture := true |};
             RegionChangeComplete r {| isGesture := true |}])
  ∧ (∃ r : Region.t,
       r = MapViewB.getCurrentRegion wB
       ∧ MapViewB.trace (MapViewB.step wB MapViewB.ZoomChanged)
         = MapViewB.trace wB
           ++ [RegionChange r {| isGesture := true |};
               RegionChangeComplete r {| isGesture := true |}]).
Proof.
  intros wA wB.
  destruct (settle_order_and_payload wA MapViewA.Idle wB MapViewB.ZoomChanged)
    as (HA & HB).
  split.
  - apply HA; [right; split; reflexivity | reflexivity | reflexivity].
  - apply HB; [reflexivity | left; split; [reflexivity | by eexists]
              | reflexivity | reflexivity].
Defined.

Lemma camera_moves_agree_witness :
  let c := {| Camera.center := {| LatLng.latitude := Fin 48;
                                  LatLng.longitude := Fin 2 |};
              Camera.pitch := Some (Fin 30); Camera.heading := None;
              Camera.altitude := None; Camera.zoom := Some 15 |} in
  let wA := MapViewA.run (MapViewA.mount sampleProps sampleMap)
              [MapViewA.Load] in
  let wB := MapViewB.run (MapViewB.mount sampleProps sampleMap true)
              [MapViewB.Load] in
  map_calls (MapViewA.widget (MapViewA.setCamera c wA))
  = [MoveCamera
       {| CameraOptions.center := {| lat := Fin 48; lng := Fin 2 |};
          CameraOptions.pitch := Some (Fin 30); CameraOptions.heading := None;
          CameraOptions.altitude := None; CameraOptions.zoom := Some 15 |}]
  ∧ map_calls (MapViewB.widget (MapViewB.setCamera c wB))
    = [MoveCamera
         {| CameraOptions.center := {| lat := Fin 48; lng := Fin 2 |};
            CameraOptions.pitch := Some (Fin 30); CameraOptions.heading := None;
            CameraOptions.altitude := None; CameraOptions.zoom := Some 15 |}]
  ∧ MapViewA.setCamera c (MapViewA.mount sampleProps sampleMap)
    = MapViewA.mount sampleProps sampleMap
  ∧ MapViewB.setCamera c (MapViewB.mount sampleProps sampleMap true)
    = MapViewB.mount sampleProps sampleMap true.
Proof.
  intros c wA wB.
  destruct (camera_moves_agree c wA wB) as (_ & _ & HA & HB & _ & _).
  destruct (camera_moves_agree c (MapViewA.mount sampleProps sampleMap)
              (MapViewB.mount sampleProps sampleMap true))
    as (_ & _ & _ & _ & HA0 & HB0).
  split_and!.
  - apply HA. by eexists.
  - apply HB. by eexists.
  - apply HA0. reflexivity.
  - apply HB0. reflexivity.
Defined.

Lemma animateToRegion_pans_only_witness :
  let wA := MapViewA.run (MapViewA.mount sampleProps sampleMap)
              [MapViewA.Load] in
  let wB := MapViewB.run (MapViewB.mount sampleProps sampleMap true)
              [MapViewB.Load] in
  (map_calls (MapViewA.widget (MapViewA.animateToRegion sampleRegion wA))
   = [PanTo {| lat := Fin 10; lng := Fin 20 |}]
   ∧ getZoom (MapViewA.widget (MapViewA.animateToRegion sampleRegion wA))
     = Some 12)
  ∧ (map_calls (MapViewB.widget (MapViewB.animateToRegion sampleRegion wB))
     = [PanTo {| lat := Fin 10; lng := Fin 20 |}]
     ∧ getZoom (MapViewB.widget (MapViewB.animateToRegion sampleRegion wB))
       = Some 12)
  ∧ MapViewA.animateToRegion sampleRegion (MapViewA.mount sampleProps sampleMap)
    = MapViewA.mount sampleProps sampleMap
  ∧ MapViewB.animateToRegion sampleRegion
      (MapViewB.mount sampleProps sampleMap true)
    = MapViewB.mount sampleProps sampleMap true.
Proof.
  intros wA wB.
  destruct (animateToRegion_pans_only sampleRegion wA wB) as (HA & HB & _ & _).
  destruct (animateToRegion_pans_only sampleRegion
              (MapViewA.mount sampleProps sampleMap)
              (MapViewB.mount sampleProps sampleMap true))
    as (_ & _ & HA0 & HB0).
  assert (HiA : is_Some (MapViewA.instance wA)) by (by eexists).
  assert (HiB : is_Some (MapViewB.instance wB)) by (by eexists).
  destruct (HA HiA) as (HAc & _ & HAz & _).
  destruct (HB HiB) as (HBc & _ & HBz & _).
  split_and!.
  - apply HAc.
  - apply HAz.
  - apply HBc.
  - apply HBz.
  - apply HA0. reflexivity.
  - apply HB0. reflexivity.
Defined.

(** C1, second component: a region of latitude 10, longitude 20 and
    deltas 0.1 arrives; the center becomes { lat: 10, lng: 20 } but the
    zoom becomes calcZoom(20) = 4, where calcZoom(region.longitudeDelta)
    is 12 and is what the first component sets. *)
Theorem region_update_second_component :
  let wB := MapViewB.rerender regionProps
              (MapViewB.mount sampleProps sampleMap true) in
  let wA := MapViewA.rerender regionProps
              (MapViewA.mount sampleProps sampleMap) in
  MapViewB.center wB = {| lat := Fin 10; lng := Fin 20 |}
  ∧ MapViewB.zoom wB = 4
  ∧ calcZoom (Region.longitudeDelta sampleRegion) = 12
  ∧ MapViewA.center wA = {| lat := Fin 10; lng := Fin 20 |}
  ∧ MapViewA.zoom wA = 12.
Proof. vm_compute. repeat apply conj; exact eq_refl. Qed.

(** C5, second component: read before any load event, the current
    region has latitude and longitude 0 but NaN for both deltas; the
    camera is the zero camera, and the first component's region is all
    zero. *)
Theorem reads_before_load_second_component :
  let wB := MapViewB.mount sampleProps sampleMap true in
  let wA := MapViewA.mount sampleProps sampleMap in
  MapViewB.getCurrentRegion wB
  = {| Region.latitude := Fin 0; Region.longitude := Fin 0;
       Region.latitudeDelta := NaN; Region.longitudeDelta := NaN |}
  ∧ MapViewB.getCamera wB
    = {| Camera.center := {| LatLng.latitude := Fin 0; LatLng.longitude := Fin 0 |};
         Camera.pitch := Some (Fin 0); Camera.heading := Some (Fin 0);
         Camera.altitude := Some (Fin 0); Camera.zoom := Some 0 |}
  ∧ MapViewA.getCurrentRegion wA
    = {| Region.latitude := Fin 0; Region.longitude := Fin 0;
         Region.latitudeDelta := Fin 0; Region.longitudeDelta := Fin 0 |}.
Proof. vm_compute. repeat apply conj; exact eq_refl. Qed.

(** C10, second component: the first render already writes the
    computed options into the shared defaults, and what one computation
    put there is still in the result of the next: after a render with
    zoom disabled and the caller's draggable option, a render without
    them still yields draggable.  The first component starts from the
    untouched defaults both times. *)
Theorem options_memo_second_component :
  let wB0 := MapViewB.mount sampleProps sampleMap true in
  let wB2 := MapViewB.rerender sampleProps (MapViewB.rerender draggableProps wB0) in
  let wA2 := MapViewA.rerender sampleProps
               (MapViewA.rerender draggableProps
                  (MapViewA.mount sampleProps sampleMap)) in
  DEFAULT_OPTIONS !! "gestureHandling" = None
  ∧ MapViewB.defaultOptions wB0 !! "gestureHandling" = Some (VStr "auto")
  ∧ MapViewB.options wB2 !! "draggable" = Some (VBool false)
  ∧ MapViewB.defaultOptions wB2 !! "draggable" = Some (VBool false)
  ∧ MapViewA.options wA2 !! "draggable" = None
  ∧ MapViewA.defaultOptions wA2 = DEFAULT_OPTIONS.
Proof.
  cbv zeta. split_and!; vm_compute; reflexivity.
Qed.

(** C7, second component: the answer to the effect's one-shot request
    is not tied to the feature.  (1) Tracking creates marker 0 and moves
    it; switching the feature off clears watch 0 and takes marker 0 off
    the map; the one-shot answer that arrives then creates marker 1, on
    the map, with the feature off and no watch active.  (2) After two
    rounds of on and off, the two late answers create a marker and then
    move it.  (3) The same after the component is torn down. *)
Theorem late_fix_after_disable :
  let w1 := MapViewB.run (MapViewB.mount trackingProps sampleMap true)
              [MapViewB.Load; MapViewB.FixWatch 0 here;
               MapViewB.FixWatch 0 there; MapViewB.Rerender sampleProps;
               MapViewB.FixOnce late] in
  let w2 := MapViewB.run (MapViewB.mount trackingProps sampleMap true)
              [MapViewB.Load; MapViewB.Rerender sampleProps;
               MapViewB.Rerender trackingProps; MapViewB.Rerender sampleProps;
               MapViewB.FixOnce here; MapViewB.FixOnce there] in
  let w3 := MapViewB.run (MapViewB.mount trackingProps sampleMap true)
              [MapViewB.Load; MapViewB.FixWatch 0 here; MapViewB.Unmount;
               MapViewB.FixOnce late] in
  (showsUserLocation (MapViewB.props w1) = None
   ∧ MapViewB.watches w1 = []
   ∧ MapViewB.overlay w1
     = [MapViewB.GetCurrentPosition; MapViewB.WatchPosition 0;
        MapViewB.NewMarker 0 here; MapViewB.SetPosition 0 there;
        MapViewB.ClearWatch 0; MapViewB.SetMapNull 0;
        MapViewB.NewMarker 1 late]
   ∧ MapViewB.userLocationMarker w1 = Some 1%nat
   ∧ MapViewB.markers w1
     = [{| position := there; onMap := false |};
        {| position := late; onMap := true |}])
  ∧ (showsUserLocation (MapViewB.props w2) = None
     ∧ MapViewB.watches w2 = []
     ∧ MapViewB.overlay w2
       = [MapViewB.GetCurrentPosition; MapViewB.WatchPosition 0;
          MapViewB.ClearWatch 0;
          MapViewB.GetCurrentPosition; MapViewB.WatchPosition 1;
          MapViewB.ClearWatch 1;
          MapViewB.NewMarker 0 here; MapViewB.SetPosition 0 there])
  ∧ (MapViewB.mounted w3 = false
     ∧ MapViewB.overlay w3
       = [MapViewB.GetCurrentPosition; MapViewB.WatchPosition 0;
          MapViewB.NewMarker 0 here; MapViewB.SetMapNull 0;
          MapViewB.ClearWatch 0; MapViewB.NewMarker 1 late]
     ∧ MapViewB.markers w3
       = [{| position := here; onMap := false |};
          {| position := late; onMap := true |}]).
Proof. vm_compute. repeat apply conj; exact eq_refl. Qed.

End Samples.

(** * Further properties of the two components *)

Section Frames.
Context `{Utils} `{Config}.

Lemma coreB_runWatchCleanup (w : MapViewB.World) :
  coreB (MapViewB.runWatchCleanup w) = coreB w.
Proof. unfold MapViewB.runWatchCleanup. by destruct (MapViewB.watchCleanup w). Qed.

Lemma coreB_userLocationEffect (w : MapViewB.World) :
  coreB (MapViewB.userLocationEffect w) = coreB w.
Proof.
  unfold MapViewB.userLocationEffect.
  destruct (negb _ || negb _); [by destruct (MapViewB.userLocationMarker w)|].
  by destruct (negb _ || negb _).
Qed.

Lemma coreB_unmount (w : MapViewB.World) :
  coreB (MapViewB.unmount w) = coreB w.
Proof.
  unfold MapViewB.unmount, MapViewB.markerCleanup, MapViewB.runWatchCleanup.
  destruct (MapViewB.userLocationMarker w); cbn;
    by destruct (MapViewB.watchCleanup w).
Qed.

Lemma coreB_updateUserLocation (pos : LatLngLiteral) (w : MapViewB.World) :
  coreB (MapViewB.updateUserLocation pos w) = coreB w.
Proof.
  unfold MapViewB.updateUserLocation.
  by destruct (MapViewB.userLocationMarker w), (MapViewB.instance w).
Qed.


Lemma traceB_of_core (w w' : MapViewB.World) :
  coreB w' = coreB w → MapViewB.trace w' = MapViewB.trace w.
Proof. by intros [= _ _ ->]. Qed.

Lemma traceB_rerender (p : Props) (w : MapViewB.World) :
  MapViewB.trace (MapViewB.rerender p w) = MapViewB.trace w.
Proof.
  unfold MapViewB.rerender. cbv zeta beta.
  set (w1 := if decide (optionDeps _ = optionDeps p) then _ else _).
  assert (H1 : MapViewB.trace w1 = MapViewB.trace w) by (subst w1; by case_decide).
  clearbody w1.
  set (w2 := if decide (region _ = region p) then w1 else _).
  assert (H2 : MapViewB.trace w2 = MapViewB.trace w) by (subst w2; by case_decide).
  clearbody w2. clear w1 H1.
  set (w3 := if decide (default false _ = default false _) then w2 else _).
  assert (H3 : MapViewB.trace w3 = MapViewB.trace w).
  { subst w3. case_decide; [done|].
    by rewrite (traceB_of_core _ _ (coreB_runWatchCleanup w2)). }
  clearbody w3. clear w2 H2.
  assert (Hafter : ∀ w', MapViewB.trace w' = MapViewB.trace w →
            MapViewB.trace
              (if decide (default false (showsUserLocation (MapViewB.props w))
                          = default false (showsUserLocation p))
               then w' else MapViewB.userLocationEffect w') = MapViewB.trace w).
  { intros w' Hw'. case_decide; [done|].
    by rewrite (traceB_of_core _ _ (coreB_userLocationEffect w')). }
  destruct (decide (region (MapViewB.props w) = region p)); [by apply Hafter|].
  unfold MapViewB.regionEffect. destruct (region (MapViewB.props w3)).
  - by apply Hafter.
  - by rewrite (traceB_of_core _ _ (coreB_unmount w3)).
Qed.


(** X3: only the widget's load, zoom-changed, idle and drag events make
    the component call its caller: renders (a new region included), the
    camera calls of the handle, clicks, camera moves, position fixes and
    the teardown call nothing.  In both components. *)
Theorem outward_calls_from_widget_events_only
    (wA : MapViewA.World) (eA : MapViewA.event)
    (wB : MapViewB.World) (eB : MapViewB.event) :
  (reportsA eA = false →
   MapViewA.trace (MapViewA.step wA eA) = MapViewA.trace wA)
  ∧ (reportsB eB = false →
     MapViewB.trace (MapViewB.step wB eB) = MapViewB.trace wB).
Proof.
  split.
  - intros Hr. destruct eA; try discriminate Hr; cbn; unfold_A; crush_step.
  - intros Hr.
    pose proof (λ w', traceB_of_core wB w') as Hcore.
    destruct eB; try discriminate Hr; cbn [MapViewB.step];
      try (destruct (negb (MapViewB.mounted wB)); [done|]); try done.
    + apply traceB_rerender.
    + unfold MapViewB.animateCamera. by destruct (MapViewB.current wB).
    + unfold MapViewB.setCamera. by destruct (MapViewB.current wB).
    + unfold MapViewB.animateToRegion. by destruct (MapViewB.current wB).
    + destruct (MapViewB.pendingFixes wB); [done|].
      by apply Hcore; rewrite coreB_updateUserLocation.
    + by destruct (MapViewB.pendingFixes wB).
    + case_decide; [|done]. by apply Hcore; rewrite coreB_updateUserLocation.
    + by case_decide.
    + by apply Hcore, coreB_unmount.
Qed.

End Frames.

Section Viewport2.
Context `{Utils} `{Config}.

Lemma deltaRadio_userLocationEffect (w : MapViewB.World) :
  MapViewB.deltaRadio (MapViewB.userLocationEffect w) = MapViewB.deltaRadio w.
Proof.
  unfold MapViewB.userLocationEffect.
  destruct (negb _ || negb _); [by destruct (MapViewB.userLocationMarker w)|].
  by destruct (negb _ || negb _).
Qed.

Lemma startField_source (f : Region.t → number) (p : Props) :
  startField f p = f (default (default DEFAULT_REGION (initialRegion p)) (region p)).
Proof. unfold startField. by destruct (region p), (initialRegion p). Qed.

(** X2: the first render takes center, zoom and delta ratio from the
    region prop when it is given, else from initialRegion, else from
    DEFAULT_REGION; the zoom is calcZoom of that region's longitude
    delta.  In both components. *)
Theorem initial_viewport_precedence (p : Props) (map : Map) (geo : bool) :
  let source := default (default DEFAULT_REGION (initialRegion p)) (region p) in
  let wA := MapViewA.mount p map in
  let wB := MapViewB.mount p map geo in
  (MapViewA.center wA
   = {| lat := Region.latitude source; lng := Region.longitude source |}
   ∧ MapViewA.zoom wA = calcZoom (Region.longitudeDelta source)
   ∧ MapViewA.deltaRatio wA
     = div (Region.latitudeDelta source) (Region.longitudeDelta source))
  ∧ (MapViewB.center wB
     = {| lat := Region.latitude source; lng := Region.longitude source |}
     ∧ MapViewB.zoom wB = calcZoom (Region.longitudeDelta source)
     ∧ MapViewB.deltaRadio wB
       = div (Region.latitudeDelta source) (Region.longitudeDelta source)).
Proof.
  intros source wA wB. subst source wA wB. split.
  - unfold MapViewA.mount. cbn. by rewrite !startField_source.
  - unfold MapViewB.mount.
    set (w := MapViewB.useMemo_deltaRadio _).
    pose proof (coreB_userLocationEffect w) as E. injection E as -> -> _.
    rewrite deltaRadio_userLocationEffect. subst w.
    cbn. by rewrite !startField_source.
Qed.



End Viewport2.

Section MemosA.
Context `{Utils} `{Config}.

Lemma optionDeps_computed (p q : Props) :
  optionDeps p = optionDeps q →
  computedOptions p = computedOptions q ∧ provideOptions p = provideOptions q.
Proof.
  unfold optionDeps, computedOptions. intros [= -> -> -> -> -> -> -> ->]. done.
Qed.

Lemma memosFresh_mount (p : Props) (map : Map) :
  memosFresh (MapViewA.mount p map).
Proof. unfold memosFresh. split_and!; reflexivity. Qed.

Lemma memosFresh_rerender (p : Props) (w : MapViewA.World) :
  memosFresh w → memosFresh (MapViewA.rerender p w).
Proof.
  intros (Hr & Ho & Hd). unfold MapViewA.rerender. cbv zeta.
  set (w1 := if decide (optionDeps _ = optionDeps p) then _ else _).
  assert (H1 : MapViewA.props w1 = p
               ∧ MapViewA.deltaRatio w1 = MapViewA.deltaRatio w
               ∧ MapViewA.options w1
                 = default ∅ (provideOptions p) ∪ (computedOptions p ∪ DEFAULT_OPTIONS)
               ∧ MapViewA.defaultOptions w1 = DEFAULT_OPTIONS).
  { subst w1. case_decide as Hdeps.
    - apply optionDeps_computed in Hdeps as [Hc Hp].
      split_and!; [reflexivity | reflexivity | | exact Hd].
      change (MapViewA.options (MapViewA.set_props p w)) with (MapViewA.options w).
      rewrite Ho, Hc, Hp. reflexivity.
    - split_and!; [reflexivity | reflexivity | | exact Hd].
      change (MapViewA.options (MapViewA.useMemo_options (MapViewA.set_props p w)))
        with (default ∅ (provideOptions p)
              ∪ (computedOptions p ∪ MapViewA.defaultOptions w)).
      rewrite Hd. reflexivity. }
  clearbody w1. destruct H1 as (Hp1 & Hr1 & Ho1 & Hd1).
  set (w2 := if decide (_ = (region p, initialRegion p)) then w1 else _).
  assert (H2 : memosFresh w2 ∧ MapViewA.props w2 = p).
  { subst w2. case_decide as Hdeps.
    - split; [|exact Hp1]. unfold memosFresh. rewrite Hp1, Hr1, Ho1, Hd1, Hr.
      injection Hdeps as Hrg Hin.
      split_and!; [|reflexivity..]. unfold startField. rewrite Hrg, Hin.
      reflexivity.
    - split; [|exact Hp1]. unfold memosFresh, MapViewA.useMemo_deltaRatio.
      cbn [MapViewA.props MapViewA.deltaRatio MapViewA.options
           MapViewA.defaultOptions MapViewA.set_deltaRatio].
      rewrite Hp1, Ho1, Hd1. split_and!; reflexivity. }
  clearbody w2. clear w1 Hp1 Hr1 Ho1 Hd1. destruct H2 as [H2 Hp2].
  case_decide; [exact H2|].
  unfold MapViewA.regionEffect.
  destruct (region (MapViewA.props w2)); exact H2.
Qed.

Lemma memosFresh_step (w : MapViewA.World) (e : MapViewA.event) :
  memosFresh w → memosFresh (MapViewA.step w e).
Proof.
  intros Hw. destruct e; [by apply memosFresh_rerender|..];
    cbn [MapViewA.step]; unfold_A;
    repeat match goal with
           | |- context [match ?x with _ => _ end] => destruct x
           end; exact Hw.
Qed.

Lemma memosFresh_run (p : Props) (map : Map) (es : list MapViewA.event) :
  memosFresh (MapViewA.run (MapViewA.mount p map) es).
Proof.
  generalize (memosFresh_mount p map). generalize (MapViewA.mount p map).
  induction es as [|e es IH]; intros w Hw; [done|].
  cbn. apply IH. by apply memosFresh_step.
Qed.

Lemma computedOptions_keys (p : Props) (k : string) :
  (k ∈ computedKeys → is_Some (computedOptions p !! k))
  ∧ (k ∉ computedKeys → computedOptions p !! k = None).
Proof.
  unfold computedKeys, computedOptions. split.
  - intros Hk. rewrite !elem_of_cons in Hk.
    destruct Hk as [->|[->|[->|[->|[->|[->|[->|Hk]]]]]]];
      [by simplify_map_eq..|by apply elem_of_nil in Hk].
  - intros Hk. rewrite !not_elem_of_cons in Hk.
    destruct Hk as (?&?&?&?&?&?&?&_). by simplify_map_eq.
Qed.

(** X6: in the first component the memo cells never go stale: after
    every event sequence the cached delta ratio is the ratio of the
    deltas the current props give, and the options object is the merge of
    the untouched defaults, the computed options and the caller's options
    for the current props. *)
Theorem first_component_memos_fresh (p : Props) (map : Map)
    (es : list MapViewA.event) :
  let w := MapViewA.run (MapViewA.mount p map) es in
  let source :=
    default (default DEFAULT_REGION (initialRegion (MapViewA.props w)))
      (region (MapViewA.props w)) in
  MapViewA.deltaRatio w
  = div (Region.latitudeDelta source) (Region.longitudeDelta source)
  ∧ MapViewA.options w
    = default ∅ (provideOptions (MapViewA.props w))
      ∪ (computedOptions (MapViewA.props w) ∪ DEFAULT_OPTIONS).
Proof.
  intros w source. destruct (memosFresh_run p map es) as (Hr & Ho & _).
  fold w in Hr, Ho. split; [|done].
  rewrite Hr. subst source. by rewrite !startField_source.
Qed.

(** X7: who wins in the first component's options, after every event
    sequence: a key the caller's options define has the caller's value;
    otherwise a key of the computed literal has the computed value (it is
    always present, so a default under that key never shows, even when
    the prop is absent); any other key has the default's value. *)
Theorem first_component_options_precedence (p : Props) (map : Map)
    (es : list MapViewA.event) (k : string) :
  let w := MapViewA.run (MapViewA.mount p map) es in
  let own := default ∅ (provideOptions (MapViewA.props w)) in
  (∀ v, own !! k = Some v → MapViewA.options w !! k = Some v)
  ∧ (own !! k = None → k ∈ computedKeys →
     MapViewA.options w !! k = computedOptions (MapViewA.props w) !! k
     ∧ is_Some (MapViewA.options w !! k))
  ∧ (own !! k = None → k ∉ computedKeys →
     MapViewA.options w !! k = DEFAULT_OPTIONS !! k).
Proof.
  intros w own. destruct (memosFresh_run p map es) as (_ & Ho & _).
  fold w in Ho. rewrite Ho. fold own. split_and!.
  - intros v Hv. by apply lookup_union_Some_l.
  - intros Hn Hk. rewrite lookup_union_r by done.
    destruct (proj1 (computedOptions_keys (MapViewA.props w) k) Hk) as [v Hv].
    rewrite (lookup_union_Some_l _ _ _ _ Hv), Hv. by eauto.
  - intros Hn Hk. rewrite lookup_union_r by done.
    apply lookup_union_r. by apply computedOptions_keys.
Qed.

End MemosA.

(** * Invariants of the location overlay *)

Section OverlayInvariants.
Context `{Utils} `{Config}.

(** A property kept by every write of the second component's render is
    kept by the render. *)
Lemma B_rerender_preserves (P : MapViewB.World → Prop) :
  (∀ w q, P w → P (MapViewB.set_props q w)) →
  (∀ w o, P w → P (MapViewB.set_defaultOptions o w)) →
  (∀ w r, P w → P (MapViewB.set_deltaRadio r w)) →
  (∀ w c, P w → P (MapViewB.setCenter c w)) →
  (∀ w z, P w → P (MapViewB.setZoom z w)) →
  (∀ w, P w → P (MapViewB.runWatchCleanup w)) →
  (∀ w, P w → P (MapViewB.userLocationEffect w)) →
  (∀ w, P w → P (MapViewB.unmount w)) →
  ∀ p w, P w → P (MapViewB.rerender p w).
Proof.
  intros Hprops Hdef Hratio Hcenter Hzoom Hclean Heffect Hunmount p w Hw.
  unfold MapViewB.rerender. cbv zeta beta.
  set (w1 := if decide (optionDeps _ = optionDeps p) then _ else _).
  assert (H1 : P w1).
  { subst w1. case_decide; [by apply Hprops|].
    unfold MapViewB.useMemo_options. by apply Hdef, Hprops. }
  clearbody w1.
  set (w2 := if decide (region _ = region p) then w1 else _).
  assert (H2 : P w2).
  { subst w2. case_decide; [done|].
    unfold MapViewB.useMemo_deltaRadio. by apply Hratio. }
  clearbody w2. clear w1 H1.
  set (w3 := if decide (default false _ = default false _) then w2 else _).
  assert (H3 : P w3) by (subst w3; case_decide; [done | by apply Hclean]).
  clearbody w3. clear w2 H2.
  assert (Hafter : ∀ w', P w' →
            P (if decide (default false (showsUserLocation (MapViewB.props w))
                          = default false (showsUserLocation p))
               then w' else MapViewB.userLocationEffect w')).
  { intros w' Hw'. case_decide; [done | by apply Heffect]. }
  destruct (decide (region (MapViewB.props w) = region p)); [by apply Hafter|].
  unfold MapViewB.regionEffect. destruct (region (MapViewB.props w3)).
  - by apply Hafter, Hzoom, Hcenter.
  - by apply Hunmount.
Qed.

(** A property kept by every write of the second component, by the
    overlay's operations and by the load event is kept by every event. *)
Lemma B_step_preserves (P : MapViewB.World → Prop) :
  (∀ w q, P w → P (MapViewB.set_props q w)) →
  (∀ w o, P w → P (MapViewB.set_defaultOptions o w)) →
  (∀ w r, P w → P (MapViewB.set_deltaRadio r w)) →
  (∀ w c, P w → P (MapViewB.setCenter c w)) →
  (∀ w z, P w → P (MapViewB.setZoom z w)) →
  (∀ w b, P w → P (MapViewB.set_hasIdleTriggerd b w)) →
  (∀ w m, P w → P (MapViewB.set_widget m w)) →
  (∀ w cs, P w → P (MapViewB.emit cs w)) →
  (∀ w, P w → P (MapViewB.runWatchCleanup w)) →
  (∀ w, P w → P (MapViewB.userLocationEffect w)) →
  (∀ w, P w → P (MapViewB.unmount w)) →
  (∀ w n pos, P w → MapViewB.pendingFixes w = S n →
              P (MapViewB.updateUserLocation pos (MapViewB.set_pendingFixes n w))) →
  (∀ w n, P w → MapViewB.pendingFixes w = S n →
          P (MapViewB.set_pendingFixes n w)) →
  (∀ w i pos, P w → i ∈ MapViewB.watches w →
              P (MapViewB.updateUserLocation pos w)) →
  ∀ w e, P w →
         (e = MapViewB.Load → P (MapViewB.step w MapViewB.Load)) →
         P (MapViewB.step w e).
Proof.
  intros Hprops Hdef Hratio Hcenter Hzoom Hidle Hwidget Hemit Hclean Heffect
    Hunmount Honce Hfail Hwatch w e Hw Hload.
  destruct e; try (by apply Hload); cbn [MapViewB.step];
    try (destruct (negb (MapViewB.mounted w)); [done|]); try done.
  - by apply B_rerender_preserves.
  - unfold MapViewB.onZoomChanged, MapViewB.onChangeComplete.
    destruct (MapViewB.instance w); [|done]. by apply Hemit, Hemit.
  - unfold MapViewB.onIdle, MapViewB.onChangeComplete.
    destruct (negb _); [by apply Hidle | by apply Hemit, Hemit].
  - by apply Hemit.
  - by apply Hwidget.
  - unfold MapViewB.animateCamera.
    destruct (MapViewB.current w); [by apply Hwidget | done].
  - unfold MapViewB.setCamera.
    destruct (MapViewB.current w); [by apply Hwidget | done].
  - unfold MapViewB.animateToRegion.
    destruct (MapViewB.current w); [by apply Hwidget | done].
  - destruct (MapViewB.pendingFixes w) eqn:Hp; [done | by apply Honce].
  - destruct (MapViewB.pendingFixes w) eqn:Hp; [done | by apply Hfail].
  - case_decide; [by eapply Hwatch | done].
  - by case_decide.
  - by apply Hunmount.
Qed.

Lemma markersTracked_markerCleanup (w : MapViewB.World) :
  markersTracked w → markersTracked (MapViewB.markerCleanup w).
Proof.
  intros Hw. unfold MapViewB.markerCleanup.
  destruct (MapViewB.userLocationMarker w) as [id|] eqn:Hm; [|exact Hw].
  destruct Hw as [Hon Href].
  split; cbn; [|by intros i [=]].
  intros i mk Hi Hmk. exfalso.
  destruct (decide (id = i)) as [->|Hne].
  - rewrite list_lookup_alter_eq in Hi.
    destruct (MapViewB.markers w !! i); [|done].
    injection Hi as <-. done.
  - rewrite list_lookup_alter_ne in Hi by done.
    specialize (Hon i mk Hi Hmk). congruence.
Qed.

Lemma markersTracked_updateUserLocation (pos : LatLngLiteral) (w : MapViewB.World) :
  markersTracked w → markersTracked (MapViewB.updateUserLocation pos w).
Proof.
  intros Hw. unfold MapViewB.updateUserLocation.
  destruct (MapViewB.userLocationMarker w) as [id|] eqn:Hm.
  - destruct Hw as [Hon Href]. split; cbn; rewrite ?Hm.
    + intros i mk Hi Hmk. destruct (decide (id = i)) as [->|Hne]; [done|].
      rewrite list_lookup_alter_ne in Hi by done.
      specialize (Hon i mk Hi Hmk). congruence.
    + intros i [= <-]. rewrite list_lookup_alter_eq.
      destruct (Href id Hm) as [mk ->]. by eexists.
  - destruct (MapViewB.instance w); [|exact Hw].
    destruct Hw as [Hon Href]. split; cbn.
    + intros i mk Hi Hmk. f_equal.
      destruct (decide (i < length (MapViewB.markers w))%nat) as [Hlt|Hge].
      * rewrite lookup_app_l in Hi by done.
        specialize (Hon i mk Hi Hmk). congruence.
      * apply lookup_lt_Some in Hi. rewrite length_app in Hi. cbn in Hi. lia.
    + intros i [= <-]. rewrite lookup_app_r by lia.
      rewrite Nat.sub_diag. by eexists.
Qed.

Lemma markersTracked_runWatchCleanup (w : MapViewB.World) :
  markersTracked w → markersTracked (MapViewB.runWatchCleanup w).
Proof.
  unfold MapViewB.runWatchCleanup. by destruct (MapViewB.watchCleanup w).
Qed.

Lemma markersTracked_userLocationEffect (w : MapViewB.World) :
  markersTracked w → markersTracked (MapViewB.userLocationEffect w).
Proof.
  intros Hw. unfold MapViewB.userLocationEffect.
  destruct (negb _ || negb _).
  - exact (markersTracked_markerCleanup w Hw).
  - by destruct (negb _ || negb _).
Qed.

Lemma markersTracked_unmount (w : MapViewB.World) :
  markersTracked w → markersTracked (MapViewB.unmount w).
Proof.
  intros Hw.
  exact (markersTracked_runWatchCleanup _ (markersTracked_markerCleanup w Hw)).
Qed.

Lemma markersTracked_step (w : MapViewB.World) (e : MapViewB.event) :
  markersTracked w → markersTracked (MapViewB.step w e).
Proof.
  intros Hw. apply B_step_preserves; try done.
  - apply markersTracked_runWatchCleanup.
  - apply markersTracked_userLocationEffect.
  - apply markersTracked_unmount.
  - intros w' n pos Hw' _.
    by apply (markersTracked_updateUserLocation pos (MapViewB.set_pendingFixes n w')).
  - intros w' i pos Hw' _. by apply markersTracked_updateUserLocation.
  - intros _. cbn [MapViewB.step].
    destruct (negb (MapViewB.mounted w)); [done|]. cbv zeta.
    assert (Hl : markersTracked (MapViewB.onLoad w)).
    { unfold MapViewB.onLoad. cbn.
      by destruct (default false (showsMyLocationButton (MapViewB.props w))). }
    destruct (MapViewB.mapLoaded w); [done|].
    by apply markersTracked_userLocationEffect, markersTracked_runWatchCleanup.
Qed.

Lemma markersTracked_run (p : Props) (map : Map) (geo : bool)
    (es : list MapViewB.event) :
  markersTracked (MapViewB.run (MapViewB.mount p map geo) es).
Proof.
  assert (Hstart : markersTracked (MapViewB.mount p map geo)).
  { apply markersTracked_userLocationEffect. by split. }
  revert Hstart. generalize (MapViewB.mount p map geo).
  induction es as [|e es IH]; intros w0 Hw0; [done|].
  cbn. apply IH. by apply markersTracked_step.
Qed.

(** X8: at any time at most one location marker is on the map, and it
    is the one the component holds: after every event sequence (late
    fixes, toggling and teardown included), two markers that are on the
    map are the same marker, and a marker on the map is the one in
    userLocationMarker. *)
Theorem one_marker_on_the_map (p : Props) (map : Map) (geo : bool)
    (es : list MapViewB.event) (i j : nat) (mi mj : Marker) :
  let w := MapViewB.run (MapViewB.mount p map geo) es in
  MapViewB.markers w !! i = Some mi → onMap mi = true →
  MapViewB.markers w !! j = Some mj → onMap mj = true →
  i = j ∧ MapViewB.userLocationMarker w = Some i.
Proof.
  intros w Hi Hmi Hj Hmj.
  destruct (markersTracked_run p map geo es) as [Hon _]. fold w in Hon.
  pose proof (Hon i mi Hi Hmi) as Hri. pose proof (Hon j mj Hj Hmj) as Hrj.
  split; [congruence | done].
Qed.

(** A quiet overlay stays quiet through an event as long as the
    browser has no geolocation, or the widget has not loaded and the
    event is not the load event. *)
Lemma overlayQuiet_effect (w : MapViewB.World) :
  overlayQuiet w →
  MapViewB.geolocation w = false ∨ MapViewB.mapLoaded w = false →
  MapViewB.userLocationEffect w = MapViewB.set_watchCleanup None w.
Proof.
  intros (_ & _ & _ & _ & Hm & _) Hc. unfold MapViewB.userLocationEffect.
  rewrite Hm. destruct (negb _ || negb (MapViewB.geolocation w)) eqn:E1; [done|].
  destruct Hc as [Hc|Hc]; rewrite Hc in *; [by rewrite orb_true_r in E1 | done].
Qed.

Lemma overlayQuiet_cleanups (w : MapViewB.World) :
  overlayQuiet w →
  MapViewB.runWatchCleanup w = w
  ∧ MapViewB.unmount w = MapViewB.set_mounted false w.
Proof.
  intros (_ & _ & _ & _ & Hm & Hc).
  unfold MapViewB.unmount, MapViewB.markerCleanup, MapViewB.runWatchCleanup.
  rewrite Hm, Hc. done.
Qed.

Lemma overlayQuiet_step (g l : bool) (w : MapViewB.World) (e : MapViewB.event) :
  let P w := overlayQuiet w ∧ MapViewB.nextWatchId w = 0%nat
             ∧ MapViewB.geolocation w = g
             ∧ (g = false ∨ MapViewB.mapLoaded w = false) in
  P w → g = false ∨ isLoadB e = false → P (MapViewB.step w e).
Proof.
  intros P Hw He.
  assert (Hset : ∀ w', P w' → overlayQuiet w'
                 ∧ (MapViewB.geolocation w' = false ∨ MapViewB.mapLoaded w' = false)).
  { intros w' (Hq & _ & Hg & Hc). split; [done|]. destruct Hc; subst; auto. }
  apply B_step_preserves; try done.
  - intros w' Hw'. destruct (Hset w' Hw') as [Hq _].
    by rewrite (proj1 (overlayQuiet_cleanups w' Hq)).
  - intros w' Hw'. destruct (Hset w' Hw') as [Hq Hc].
    rewrite (overlayQuiet_effect w' Hq Hc).
    destruct Hw' as ((?&?&?&?&?&?) & ? & ? & ?). by repeat split.
  - intros w' Hw'. destruct (Hset w' Hw') as [Hq _].
    rewrite (proj2 (overlayQuiet_cleanups w' Hq)).
    destruct Hw' as ((?&?&?&?&?&?) & ? & ? & ?). by repeat split.
  - intros w' n pos ((_&_&_&Hp&_) & _) Hn. congruence.
  - intros w' n ((_&_&_&Hp&_) & _) Hn. congruence.
  - intros w' i pos ((_&_&Hws&_) & _) Hi. rewrite Hws in Hi.
    by apply elem_of_nil in Hi.
  - intros ->. destruct He as [->|He]; [|done].
    cbn [MapViewB.step]. destruct (negb (MapViewB.mounted w)); [done|]. cbv zeta.
    assert (Hl : P (MapViewB.onLoad w)).
    { destruct Hw as ((?&?&?&?&?&?) & ? & ? & ?). unfold MapViewB.onLoad. cbn.
      destruct (default false (showsMyLocationButton (MapViewB.props w)));
        repeat split; auto. }
    destruct (MapViewB.mapLoaded w); [done|].
    unfold MapViewB.rerunUserLocationEffect.
    destruct (Hset _ Hl) as [Hq Hc].
    rewrite (proj1 (overlayQuiet_cleanups _ Hq)), (overlayQuiet_effect _ Hq Hc).
    destruct Hl as ((?&?&?&?&?&?) & ? & ? & ?). by repeat split.
Qed.

Lemma overlayQuiet_mount (p : Props) (map : Map) (geo : bool) :
  overlayQuiet (MapViewB.mount p map geo)
  ∧ MapViewB.nextWatchId (MapViewB.mount p map geo) = 0%nat
  ∧ MapViewB.geolocation (MapViewB.mount p map geo) = geo
  ∧ MapViewB.mapLoaded (MapViewB.mount p map geo) = false.
Proof.
  unfold MapViewB.mount. set (w := MapViewB.useMemo_deltaRadio _).
  assert (Hq : overlayQuiet w) by (by repeat split).
  rewrite (overlayQuiet_effect w Hq (or_intror eq_refl)). by repeat split.
Qed.

Lemma overlayQuiet_run (p : Props) (map : Map) (geo : bool)
    (es : list MapViewB.event) :
  geo = false ∨ existsb isLoadB es = false →
  let w := MapViewB.run (MapViewB.mount p map geo) es in
  overlayQuiet w ∧ MapViewB.nextWatchId w = 0%nat
  ∧ MapViewB.geolocation w = geo
  ∧ (geo = false ∨ MapViewB.mapLoaded w = false).
Proof.
  intros He.
  assert (Hstart : overlayQuiet (MapViewB.mount p map geo)
                   ∧ MapViewB.nextWatchId (MapViewB.mount p map geo) = 0%nat
                   ∧ MapViewB.geolocation (MapViewB.mount p map geo) = geo
                   ∧ (geo = false
                      ∨ MapViewB.mapLoaded (MapViewB.mount p map geo) = false)).
  { destruct (overlayQuiet_mount p map geo) as (?&?&?&?). auto. }
  revert Hstart. generalize (MapViewB.mount p map geo).
  induction es as [|e es IH]; intros w Hw; [done|].
  cbn. apply IH.
  - destruct He as [He|He]; [by left|right].
    cbn in He. by apply orb_false_elim in He as [_ ?].
  - apply (overlayQuiet_step geo true); [done|].
    destruct He as [He|He]; [by left|right].
    cbn in He. by apply orb_false_elim in He as [? _].
Qed.

(** X9: without navigator.geolocation the overlay never does anything:
    after every event sequence no request was made, no watch is active,
    no marker exists and none is held, whatever showsUserLocation says. *)
Theorem no_geolocation_no_overlay (p : Props) (map : Map)
    (es : list MapViewB.event) :
  let w := MapViewB.run (MapViewB.mount p map false) es in
  MapViewB.overlay w = [] ∧ MapViewB.markers w = []
  ∧ MapViewB.watches w = [] ∧ MapViewB.pendingFixes w = 0%nat
  ∧ MapViewB.userLocationMarker w = None.
Proof.
  intros w.
  destruct (overlayQuiet_run p map false es (or_introl eq_refl))
    as ((?&?&?&?&?&?) & _).
  by repeat split.
Qed.

(** X10: the overlay waits for the widget.  Before any load event no
    position request is made, whatever the props; the first load event
    of a mounted component that shows the user's location, in a browser
    with geolocation, then makes exactly one getCurrentPosition request
    and starts exactly one watch. *)
Theorem overlay_starts_at_load (p : Props) (map : Map) (geo : bool)
    (es : list MapViewB.event) :
  existsb isLoadB es = false →
  let w := MapViewB.run (MapViewB.mount p map geo) es in
  (MapViewB.overlay w = [] ∧ MapViewB.watches w = []
   ∧ MapViewB.pendingFixes w = 0%nat)
  ∧ (geo = true → MapViewB.mounted w = true →
     default false (showsUserLocation (MapViewB.props w)) = true →
     let w' := MapViewB.step w MapViewB.Load in
     MapViewB.overlay w'
     = [MapViewB.GetCurrentPosition; MapViewB.WatchPosition 0]
     ∧ MapViewB.watches w' = [0%nat] ∧ MapViewB.pendingFixes w' = 1%nat).
Proof.
  intros He w.
  destruct (overlayQuiet_run p map geo es (or_intror He))
    as ((Ho & Hmk & Hws & Hp & Hm & Hc) & Hn & Hg & Hl).
  fold w in Ho, Hmk, Hws, Hp, Hm, Hc, Hn, Hg, Hl. clearbody w.
  split; [done|]. intros -> Hmt Hs.
  destruct Hl as [|Hl]; [done|].
  cbn [MapViewB.step]. rewrite Hmt, Hl. cbn [negb]. cbv zeta.
  unfold MapViewB.rerunUserLocationEffect, MapViewB.runWatchCleanup.
  assert (Hc' : MapViewB.watchCleanup (MapViewB.onLoad w) = None).
  { unfold MapViewB.onLoad. cbn.
    by destruct (default false (showsMyLocationButton (MapViewB.props w))). }
  rewrite Hc'. unfold MapViewB.userLocationEffect, MapViewB.onLoad. cbn.
  destruct (default false (showsMyLocationButton (MapViewB.props w)));
    cbn; rewrite Hs, Hg; cbn; by rewrite Ho, Hws, Hp, Hn.
Qed.

(** Who may hold a watch. *)
Lemma owner_runWatchCleanup (w : MapViewB.World) :
  MapViewB.watchCleanup (MapViewB.runWatchCleanup w) = None
  ∧ MapViewB.props (MapViewB.runWatchCleanup w) = MapViewB.props w
  ∧ MapViewB.mounted (MapViewB.runWatchCleanup w) = MapViewB.mounted w.
Proof.
  unfold MapViewB.runWatchCleanup.
  by destruct (MapViewB.watchCleanup w) eqn:E.
Qed.

Lemma owner_unmount (w : MapViewB.World) :
  MapViewB.watchCleanup (MapViewB.unmount w) = None.
Proof.
  unfold MapViewB.unmount. cbn. apply owner_runWatchCleanup.
Qed.

Lemma owner_userLocationEffect (w : MapViewB.World) :
  MapViewB.mounted w = true → watchOwned (MapViewB.userLocationEffect w).
Proof.
  intros Hm. unfold watchOwned, MapViewB.userLocationEffect.
  destruct (negb (default false _) || _) eqn:E1.
  { cbn. by intros [? [=]]. }
  apply orb_false_elim in E1 as [E1 _]. apply negb_false_iff in E1.
  destruct (negb (MapViewB.mapLoaded w) || _); [cbn; by intros [? [=]]|].
  cbn. intros _. done.
Qed.

Lemma owner_updateUserLocation (pos : LatLngLiteral) (w : MapViewB.World) :
  watchOwned w → watchOwned (MapViewB.updateUserLocation pos w).
Proof.
  unfold watchOwned, MapViewB.updateUserLocation.
  by destruct (MapViewB.userLocationMarker w), (MapViewB.instance w).
Qed.

Lemma owner_rerender (p : Props) (w : MapViewB.World) :
  MapViewB.mounted w = true → watchOwned w → watchOwned (MapViewB.rerender p w).
Proof.
  intros Hm Hw. unfold MapViewB.rerender. cbv zeta beta.
  set (w1 := if decide (optionDeps _ = optionDeps p) then _ else _).
  assert (H1 : MapViewB.props w1 = p
               ∧ MapViewB.watchCleanup w1 = MapViewB.watchCleanup w
               ∧ MapViewB.mounted w1 = true) by (subst w1; by case_decide).
  clearbody w1.
  set (w2 := if decide (region _ = region p) then w1 else _).
  assert (H2 : MapViewB.props w2 = p
               ∧ MapViewB.watchCleanup w2 = MapViewB.watchCleanup w
               ∧ MapViewB.mounted w2 = true) by (subst w2; by case_decide).
  clearbody w2. clear w1 H1. destruct H2 as (Hp2 & Hc2 & Hm2).
  destruct (decide (default false (showsUserLocation (MapViewB.props w))
                    = default false (showsUserLocation p))) as [Hs|Hs].
  - assert (H2 : watchOwned w2).
    { unfold watchOwned. rewrite Hc2, Hp2, Hm2, <- Hs. intros Hc.
      by destruct (Hw Hc). }
    destruct (decide (region (MapViewB.props w) = region p)); [done|].
    unfold MapViewB.regionEffect. destruct (region (MapViewB.props w2)); [done|].
    unfold watchOwned. rewrite owner_unmount. by intros [? [=]].
  - destruct (owner_runWatchCleanup w2) as (Hc3 & Hp3 & Hm3).
    rewrite Hm2 in Hm3.
    destruct (decide (region (MapViewB.props w) = region p)).
    + by apply owner_userLocationEffect.
    + unfold MapViewB.regionEffect.
      destruct (region (MapViewB.props (MapViewB.runWatchCleanup w2))).
      * by apply owner_userLocationEffect.
      * unfold watchOwned. rewrite owner_unmount. by intros [? [=]].
Qed.

Lemma owner_step (w : MapViewB.World) (e : MapViewB.event) :
  watchOwned w → watchOwned (MapViewB.step w e).
Proof.
  intros Hw.
  destruct e; cbn [MapViewB.step];
    try (destruct (MapViewB.mounted w) eqn:Hm; cbn [negb]; [|done]); try done.
  - by apply owner_rerender.
  - cbv zeta.
    assert (Hl : MapViewB.mounted (MapViewB.onLoad w) = true
                 ∧ watchOwned (MapViewB.onLoad w)).
    { unfold watchOwned, MapViewB.onLoad. cbn.
      destruct (default false (showsMyLocationButton (MapViewB.props w)));
        cbn; rewrite Hm; split; try done; intros Hc; by destruct (Hw Hc). }
    destruct (MapViewB.mapLoaded w); [by destruct Hl|].
    apply owner_userLocationEffect.
    destruct (owner_runWatchCleanup (MapViewB.onLoad w)) as (_ & _ & ->).
    by destruct Hl.
  - unfold MapViewB.onZoomChanged. by destruct (MapViewB.instance w).
  - unfold MapViewB.onIdle. by destruct (negb _).
  - unfold MapViewB.animateCamera. by destruct (MapViewB.current w).
  - unfold MapViewB.setCamera. by destruct (MapViewB.current w).
  - unfold MapViewB.animateToRegion. by destruct (MapViewB.current w).
  - destruct (MapViewB.pendingFixes w); [done|].
    by apply (owner_updateUserLocation pos (MapViewB.set_pendingFixes _ w)).
  - by destruct (MapViewB.pendingFixes w).
  - case_decide; [|done]. by apply owner_updateUserLocation.
  - by case_decide.
  - unfold watchOwned. rewrite owner_unmount. by intros [? [=]].
Qed.

Lemma owner_run (p : Props) (map : Map) (geo : bool) (es : list MapViewB.event) :
  watchOwned (MapViewB.run (MapViewB.mount p map geo) es).
Proof.
  assert (Hstart : watchOwned (MapViewB.mount p map geo))
    by (by apply owner_userLocationEffect).
  revert Hstart. generalize (MapViewB.mount p map geo).
  induction es as [|e es IH]; intros w Hw; [done|].
  cbn. apply IH. by apply owner_step.
Qed.

(** X11: no watch leaks.  After every event sequence at most one
    geolocation watch is active, and none is active when the component
    has been torn down or showsUserLocation is off. *)
Theorem no_leaked_watch (p : Props) (map : Map) (geo : bool)
    (es : list MapViewB.event) :
  let w := MapViewB.run (MapViewB.mount p map geo) es in
  (length (MapViewB.watches w) ≤ 1)%nat
  ∧ (MapViewB.mounted w = false
     ∨ default false (showsUserLocation (MapViewB.props w)) = false →
     MapViewB.watches w = []).
Proof.
  intros w.
  pose proof (B_run_watches p map geo es) as Ha.
  pose proof (owner_run p map geo es) as Ho.
  fold w in Ha, Ho. unfold watchesAccounted in Ha. unfold watchOwned in Ho.
  rewrite Ha. clearbody w.
  destruct (MapViewB.watchCleanup w) as [i|] eqn:Hc; cbn; (split; [lia|]);
    [|done].
  destruct (Ho ltac:(by eexists)) as [Hs Hm].
  intros [Hf|Hf]; congruence.
Qed.

End OverlayInvariants.

(** * The outward trace as a whole *)

Section Trace.
Context `{Utils} `{Config}.

Lemma completionsFollowChanges_app (t out : list Outward) :
  completionsFollowChanges t → reportShape out →
  completionsFollowChanges (t ++ out).
Proof.
  intros Ht Hs i r d Hi.
  destruct (decide (i < length t)%nat) as [Hlt|Hge].
  - rewrite lookup_app_l in Hi by done.
    destruct (Ht i r d Hi) as (j & -> & Hj). exists j. split; [done|].
    rewrite lookup_app_l by lia. done.
  - rewrite lookup_app_r in Hi by lia.
    destruct Hs as [| |r' d'|r' d']; cbn in Hi.
    + by rewrite lookup_nil in Hi.
    + destruct (i - length t)%nat as [|[|n]]; done.
    + destruct (i - length t)%nat as [|[|n]]; done.
    + destruct (i - length t)%nat as [|[|n]] eqn:E; try done.
      cbn in Hi. injection Hi as <- <-.
      exists (length t). split; [lia|].
      rewrite lookup_app_r by lia. by rewrite Nat.sub_diag.
Qed.

Lemma reportShape_settle (rc rcc : bool) (r : Region.t) :
  rc = true →
  reportShape (optcall rc (RegionChange r gesture)
               ++ optcall rcc (RegionChangeComplete r gesture)).
Proof. intros ->. destruct rcc; constructor. Qed.

Lemma A_step_shape (w : MapViewA.World) (e : MapViewA.event) :
  onRegionChange (MapViewA.props w) = true →
  ∃ out, reportShape out
         ∧ MapViewA.trace (MapViewA.step w e) = MapViewA.trace w ++ out.
Proof.
  intros Hrc.
  assert (Hsettle : ∃ out, reportShape out
            ∧ MapViewA.trace (MapViewA.onChangeComplete w)
              = MapViewA.trace w ++ out).
  { eexists. split; [|apply A_onChangeComplete_trace].
    by apply reportShape_settle. }
  assert (Hnone : ∀ w', MapViewA.trace w' = MapViewA.trace w →
            ∃ out, reportShape out ∧ MapViewA.trace w' = MapViewA.trace w ++ out).
  { intros w' ->. exists []. split; [constructor | by rewrite app_nil_r]. }
  destruct e; cbn [MapViewA.step].
  - apply Hnone. unfold_A. crush_step.
  - exists (optcall (onMapReady (MapViewA.props w)) MapReady). split.
    + destruct (onMapReady (MapViewA.props w)); constructor.
    + unfold MapViewA.onLoad. cbn.
      by destruct (customMapStyle (MapViewA.props w)).
  - unfold MapViewA.onZoomChanged.
    destruct (MapViewA.instance w); [done | by apply Hnone].
  - unfold MapViewA.onIdle. destruct (negb _); [by apply Hnone | done].
  - eexists. split; [|reflexivity]. cbn. rewrite Hrc. constructor.
  - by apply Hnone.
  - by apply Hnone.
  - by apply Hnone.
  - apply Hnone. unfold MapViewA.animateCamera. by destruct (MapViewA.current w).
  - apply Hnone. unfold MapViewA.setCamera. by destruct (MapViewA.current w).
  - apply Hnone. unfold MapViewA.animateToRegion. by destruct (MapViewA.current w).
Qed.

Lemma A_step_props (w : MapViewA.World) (e : MapViewA.event) :
  MapViewA.props (MapViewA.step w e)
  = match e with MapViewA.Rerender q => q | _ => MapViewA.props w end.
Proof. destruct e; cbn; unfold_A; crush_step. Qed.

Lemma A_run_follow (w : MapViewA.World) (es : list MapViewA.event) :
  onRegionChange (MapViewA.props w) = true →
  keepsOnRegionChangeA es = true →
  completionsFollowChanges (MapViewA.trace w) →
  completionsFollowChanges (MapViewA.trace (MapViewA.run w es)).
Proof.
  revert w. induction es as [|e es IH]; intros w Hrc Hes Ht; [done|].
  cbn in Hes. apply andb_true_iff in Hes as [He Hes].
  cbn. apply IH; [|done|].
  - rewrite A_step_props. by destruct e.
  - destruct (A_step_shape w e Hrc) as (out & Hs & ->).
    by apply completionsFollowChanges_app.
Qed.

Lemma B_step_shape (w : MapViewB.World) (e : MapViewB.event) :
  onRegionChange (MapViewB.props w) = true →
  ∃ out, reportShape out
         ∧ MapViewB.trace (MapViewB.step w e) = MapViewB.trace w ++ out.
Proof.
  intros Hrc.
  assert (Hsettle : ∃ out, reportShape out
            ∧ MapViewB.trace (MapViewB.onChangeComplete w)
              = MapViewB.trace w ++ out).
  { eexists. split; [|apply B_onChangeComplete_trace].
    by apply reportShape_settle. }
  assert (Hnone : ∀ w', MapViewB.trace w' = MapViewB.trace w →
            ∃ out, reportShape out ∧ MapViewB.trace w' = MapViewB.trace w ++ out).
  { intros w' ->. exists []. split; [constructor | by rewrite app_nil_r]. }
  destruct e; cbn [MapViewB.step];
    try (destruct (negb (MapViewB.mounted w)); [by apply Hnone|]);
    try (by apply Hnone).
  - apply Hnone, traceB_rerender.
  - exists (optcall (onMapReady (MapViewB.props w)) MapReady). split.
    + destruct (onMapReady (MapViewB.props w)); constructor.
    + cbv zeta.
      assert (Hl : MapViewB.trace (MapViewB.onLoad w)
                   = MapViewB.trace w
                     ++ optcall (onMapReady (MapViewB.props w)) MapReady).
      { unfold MapViewB.onLoad. cbn.
        by destruct (default false (showsMyLocationButton (MapViewB.props w))). }
      destruct (MapViewB.mapLoaded w); [done|].
      unfold MapViewB.rerunUserLocationEffect.
      rewrite (traceB_of_core _ _ (coreB_userLocationEffect _)).
      by rewrite (traceB_of_core _ _ (coreB_runWatchCleanup _)).
  - unfold MapViewB.onZoomChanged.
    destruct (MapViewB.instance w); [done | by apply Hnone].
  - unfold MapViewB.onIdle. destruct (negb _); [by apply Hnone | done].
  - eexists. split; [|reflexivity]. cbn. rewrite Hrc. constructor.
  - apply Hnone. unfold MapViewB.animateCamera. by destruct (MapViewB.current w).
  - apply Hnone. unfold MapViewB.setCamera. by destruct (MapViewB.current w).
  - apply Hnone. unfold MapViewB.animateToRegion. by destruct (MapViewB.current w).
  - apply Hnone. destruct (MapViewB.pendingFixes w); [done|].
    by rewrite (traceB_of_core _ _ (coreB_updateUserLocation _ _)).
  - apply Hnone. by destruct (MapViewB.pendingFixes w).
  - apply Hnone. case_decide; [|done].
    by rewrite (traceB_of_core _ _ (coreB_updateUserLocation _ _)).
  - apply Hnone. by case_decide.
  - apply Hnone. by rewrite (traceB_of_core _ _ (coreB_unmount _)).
Qed.

Lemma props_userLocationEffect (w : MapViewB.World) :
  MapViewB.props (MapViewB.userLocationEffect w) = MapViewB.props w.
Proof.
  unfold MapViewB.userLocationEffect.
  destruct (negb _ || negb _); [by destruct (MapViewB.userLocationMarker w)|].
  by destruct (negb (MapViewB.mapLoaded w) || _).
Qed.

Lemma propsB_rerender (p : Props) (w : MapViewB.World) :
  MapViewB.props (MapViewB.rerender p w) = p.
Proof.
  unfold MapViewB.rerender. cbv zeta beta.
  set (w1 := if decide (optionDeps _ = optionDeps p) then _ else _).
  assert (H1 : MapViewB.props w1 = p) by (subst w1; by case_decide).
  clearbody w1.
  set (w2 := if decide (region _ = region p) then w1 else _).
  assert (H2 : MapViewB.props w2 = p) by (subst w2; by case_decide).
  clearbody w2. clear w1 H1.
  set (w3 := if decide (default false _ = default false _) then w2 else _).
  assert (H3 : MapViewB.props w3 = p).
  { subst w3. case_decide; [done|].
    by rewrite (proj1 (proj2 (owner_runWatchCleanup w2))). }
  clearbody w3. clear w2 H2.
  pose proof props_userLocationEffect as Heff.
  assert (Hafter : ∀ w', MapViewB.props w' = p →
            MapViewB.props
              (if decide (default false (showsUserLocation (MapViewB.props w))
                          = default false (showsUserLocation p))
               then w' else MapViewB.userLocationEffect w') = p).
  { intros w' Hw'. case_decide; [done|]. by rewrite Heff. }
  destruct (decide (region (MapViewB.props w) = region p)); [by apply Hafter|].
  unfold MapViewB.regionEffect. destruct (region (MapViewB.props w3)).
  - by apply Hafter.
  - unfold MapViewB.unmount, MapViewB.markerCleanup. cbn.
    rewrite (proj1 (proj2 (owner_runWatchCleanup _))).
    by destruct (MapViewB.userLocationMarker w3).
Qed.

Lemma B_step_props (w : MapViewB.World) (e : MapViewB.event) :
  MapViewB.props (MapViewB.step w e) = MapViewB.props w
  ∨ ∃ q, e = MapViewB.Rerender q ∧ MapViewB.props (MapViewB.step w e) = q.
Proof.
  destruct e; cbn [MapViewB.step];
    try (destruct (negb (MapViewB.mounted w)); [by left|]); try (by left).
  - right. eexists. split; [done|]. apply propsB_rerender.
  - left. cbv zeta.
    assert (Hl : MapViewB.props (MapViewB.onLoad w) = MapViewB.props w).
    { unfold MapViewB.onLoad. cbn.
      by destruct (default false (showsMyLocationButton (MapViewB.props w))). }
    destruct (MapViewB.mapLoaded w); [done|].
    unfold MapViewB.rerunUserLocationEffect.
    by rewrite props_userLocationEffect, (proj1 (proj2 (owner_runWatchCleanup _))).
  - left. unfold MapViewB.onZoomChanged. by destruct (MapViewB.instance w).
  - left. unfold MapViewB.onIdle. by destruct (negb _).
  - left. unfold MapViewB.animateCamera. by destruct (MapViewB.current w).
  - left. unfold MapViewB.setCamera. by destruct (MapViewB.current w).
  - left. unfold MapViewB.animateToRegion. by destruct (MapViewB.current w).
  - left. destruct (MapViewB.pendingFixes w); [done|].
    unfold MapViewB.updateUserLocation. cbn.
    by destruct (MapViewB.userLocationMarker w), (MapViewB.instance w).
  - left. by destruct (MapViewB.pendingFixes w).
  - left. case_decide; [|done]. unfold MapViewB.updateUserLocation.
    by destruct (MapViewB.userLocationMarker w), (MapViewB.instance w).
  - left. by case_decide.
  - left. unfold MapViewB.unmount, MapViewB.markerCleanup. cbn.
    rewrite (proj1 (proj2 (owner_runWatchCleanup _))).
    by destruct (MapViewB.userLocationMarker w).
Qed.

Lemma B_run_follow (w : MapViewB.World) (es : list MapViewB.event) :
  onRegionChange (MapViewB.props w) = true →
  keepsOnRegionChangeB es = true →
  completionsFollowChanges (MapViewB.trace w) →
  completionsFollowChanges (MapViewB.trace (MapViewB.run w es)).
Proof.
  revert w. induction es as [|e es IH]; intros w Hrc Hes Ht; [done|].
  cbn in Hes. apply andb_true_iff in Hes as [He Hes].
  cbn. apply IH; [|done|].
  - by destruct (B_step_props w e) as [->|(q & -> & ->)].
  - destruct (B_step_shape w e Hrc) as (out & Hs & ->).
    by apply completionsFollowChanges_app.
Qed.

(** X12: as long as onRegionChange is supplied, the caller never sees
    a completion without its change: after every event sequence, every
    onRegionChangeComplete call in the trace comes immediately after an
    onRegionChange call with the same region and the same details.  In
    both components. *)
Theorem completions_follow_changes (p : Props) (map : Map) (geo : bool)
    (esA : list MapViewA.event) (esB : list MapViewB.event) :
  onRegionChange p = true →
  keepsOnRegionChangeA esA = true → keepsOnRegionChangeB esB = true →
  completionsFollowChanges
    (MapViewA.trace (MapViewA.run (MapViewA.mount p map) esA))
  ∧ completionsFollowChanges
      (MapViewB.trace (MapViewB.run (MapViewB.mount p map geo) esB)).
Proof.
  intros Hp HA HB. split.
  - apply A_run_follow; [done | done |].
    change (MapViewA.trace (MapViewA.mount p map)) with (@nil Outward).
    intros i r d Hi. by rewrite lookup_nil in Hi.
  - apply B_run_follow; [| done |].
    + unfold MapViewB.mount. by rewrite props_userLocationEffect.
    + unfold MapViewB.mount.
      rewrite (traceB_of_core _ _ (coreB_userLocationEffect _)).
      change (MapViewB.trace _) with (@nil Outward).
      intros i r d Hi. by rewrite lookup_nil in Hi.
Qed.

End Trace.

(** * The build script *)

Section BuildScript.

Lemma append_assoc (a b c : string) : (a +:+ b) +:+ c = a +:+ b +:+ c.
Proof.
  induction a as [|x a IH]; [done|].
  change (String x ((a +:+ b) +:+ c) = String x (a +:+ b +:+ c)). by f_equal.
Qed.

Lemma environment_cases (target : string) (formats : option string) :
  Build.environment target formats
  = match formats with
    | None => "TARGET:" +:+ target
    | Some f => "TARGET:" +:+ target +:+ ",FORMATS:" +:+ f
    end.
Proof.
  unfold Build.environment. destruct formats as [f|]; cbn.
  - rewrite !decide_True by done.
    exact (append_assoc "TARGET:" target (",FORMATS:" +:+ f)).
  - rewrite decide_True by done. by rewrite decide_False by (intros E; by apply E).
Qed.

Lemma tryBlock_shape (cwd target : string) (formats : option string)
    (fails : Build.Call → bool) :
  Build.tryBlock cwd target formats fails
  = ((actionOf cwd target formats <$> attempted fails (performed formats))
     ++ (if allPass fails (performed formats) then [Build.SpinnerSucceed] else []),
     if allPass fails (performed formats) then Some tt else None).
Proof.
  unfold Build.tryBlock, Build.andThen, Build.call, Build.log, Build.ret,
    performed, allPass.
  destruct formats as [f|]; cbn;
    destruct (fails Build.RemoveDist), (fails Build.Rollup),
      (fails Build.Require), (fails Build.Prepare), (fails Build.Invoke),
      (fails Build.RemovePackages); reflexivity.
Qed.

Lemma build_shape (cwd target : string) (formats : option string)
    (pkg : Build.Package) (fails : Build.Call → bool) :
  Build.skipBuild pkg = false →
  Build.build cwd target formats pkg fails
  = Build.SpinnerStart
      ("Building " +:+ Build.name pkg +:+ " " +:+ String (Ascii.ascii_of_nat 13) "")
    :: (actionOf cwd target formats <$> attempted fails (performed formats))
    ++ (if allPass fails (performed formats) then [Build.SpinnerSucceed]
        else [Build.SpinnerFail; Build.ConsoleError]).
Proof.
  intros Hskip. unfold Build.build. rewrite Hskip, tryBlock_shape.
  destruct (allPass fails (performed formats)); [done|].
  by rewrite app_nil_r.
Qed.

Lemma attempted_all (fails : Build.Call → bool) (cs : list Build.Call) :
  (∀ c, c ∈ cs → fails c = false) →
  attempted fails cs = cs ∧ allPass fails cs = true.
Proof.
  unfold allPass. induction cs as [|c cs IH]; intros Hok; [done|]. cbn.
  rewrite (Hok c) by (by left). cbn.
  destruct IH as [-> ->]; [|done]. intros c' Hc'. apply Hok. by right.
Qed.

Lemma attempted_first_failure (fails : Build.Call → bool)
    (before after : list Build.Call) (c : Build.Call) :
  (∀ c', c' ∈ before → fails c' = false) →
  fails c = true →
  attempted fails (before ++ c :: after) = before ++ [c]
  ∧ allPass fails (before ++ c :: after) = false.
Proof.
  unfold allPass. induction before as [|b before IH]; intros Hok Hfail; cbn.
  - by rewrite Hfail.
  - rewrite (Hok b) by (by left). cbn.
    destruct IH as [-> ->]; [|done..]. intros c' Hc'. apply Hok. by right.
Qed.

Lemma attempted_elem (fails : Build.Call → bool) (cs : list Build.Call)
    (c : Build.Call) :
  c ∈ attempted fails cs →
  c ∈ cs ∧ (NoDup cs → last cs = Some c → ∀ c', c' ∈ cs → c' ≠ c → fails c' = false).
Proof.
  induction cs as [|b cs IH]; cbn; [by intros ?%elem_of_nil|].
  intros [->|Hc]%elem_of_cons.
  - split; [by left|]. intros [Hb Hnd]%NoDup_cons Hlast c' Hc' Hne.
    destruct cs as [|b' cs]; [by apply list_elem_of_singleton in Hc'|].
    exfalso. apply Hb. rewrite last_cons_cons in Hlast.
    by apply last_Some_elem_of.
  - destruct (fails b) eqn:Eb; [by apply elem_of_nil in Hc|].
    destruct (IH Hc) as [Hin Hrest]. split; [by right|].
    intros [Hb Hnd]%NoDup_cons Hlast c' [->|Hc']%elem_of_cons Hne; [done|].
    apply Hrest; try done.
    destruct cs as [|b' cs]; [by apply elem_of_nil in Hc'|].
    by rewrite last_cons_cons in Hlast.
Qed.

(** X15: once package.json is read and skipBuild is unset, the build
    script finishes in one of two ways.  When no call of its try block fails, the actions are the spinner
    start, every call in order, and the spinner's success.  When a call
    fails, the actions are the spinner start, the calls up to the
    failing one, then the spinner's failure and the logged error: no
    later call is made and success is never reported. *)
Theorem build_outcomes (cwd target : string) (formats : option string)
    (pkg : Build.Package) (fails : Build.Call → bool) :
  Build.skipBuild pkg = false →
  let start :=
    Build.SpinnerStart
      ("Building " +:+ Build.name pkg +:+ " " +:+ String (Ascii.ascii_of_nat 13) "") in
  ((∀ c, c ∈ performed formats → fails c = false) →
   Build.build cwd target formats pkg fails
   = start :: (actionOf cwd target formats <$> performed formats)
       ++ [Build.SpinnerSucceed])
  ∧ (∀ before c after,
       performed formats = before ++ c :: after →
       (∀ c', c' ∈ before → fails c' = false) →
       fails c = true →
       Build.build cwd target formats pkg fails
       = start :: (actionOf cwd target formats <$> before)
           ++ [actionOf cwd target formats c; Build.SpinnerFail;
               Build.ConsoleError]).
Proof.
  intros Hskip start. rewrite build_shape by done. split.
  - intros Hok. by destruct (attempted_all fails _ Hok) as [-> ->].
  - intros before c after -> Hok Hfail.
    destruct (attempted_first_failure fails before after c Hok Hfail) as [-> ->].
    by rewrite fmap_app, <- app_assoc.
Qed.

(** X16: what the script does with the two directories and the formats
    option.  A package with skipBuild makes it do nothing at all.
    Otherwise ../dist is removed, as the first call, exactly when no
    formats are given; with formats f the rollup environment is
    TARGET:t,FORMATS:f and without it TARGET:t; and dist/packages is
    removed only when no earlier call failed. *)
Theorem build_directories (cwd target : string) (formats : option string)
    (pkg : Build.Package) (fails : Build.Call → bool) :
  let actions := Build.build cwd target formats pkg fails in
  (Build.skipBuild pkg = true → actions = [])
  ∧ (Build.skipBuild pkg = false →
     (Build.FsRemove "..//dist" ∈ actions ↔ formats = None)
     ∧ (formats = None → actions !! 1%nat = Some (Build.FsRemove "..//dist"))
     ∧ (Build.FsRemove "dist/packages" ∈ actions →
        ∀ c, c ∈ performed formats → c ≠ Build.RemovePackages →
             fails c = false))
  ∧ Build.environment target formats
    = match formats with
      | None => "TARGET:" +:+ target
      | Some f => "TARGET:" +:+ target +:+ ",FORMATS:" +:+ f
      end.
Proof.
  intros actions. subst actions. split_and!.
  - intros Hskip. unfold Build.build. by rewrite Hskip.
  - intros Hskip. rewrite build_shape by done.
    assert (Hin : ∀ a, (∀ c, actionOf cwd target formats c = a → False ∨ True) →
              a ∈ (actionOf cwd target formats <$> attempted fails (performed formats))
                  ++ (if allPass fails (performed formats)
                      then [Build.SpinnerSucceed]
                      else [Build.SpinnerFail; Build.ConsoleError]) →
              a = Build.SpinnerSucceed ∨ a = Build.SpinnerFail
              ∨ a = Build.ConsoleError
              ∨ ∃ c, c ∈ attempted fails (performed formats)
                     ∧ a = actionOf cwd target formats c).
    { intros a _ [Ha|Ha]%elem_of_app.
      - apply list_elem_of_fmap in Ha as (c & -> & Hc). eauto 6.
      - destruct (allPass _ _);
          repeat (apply elem_of_cons in Ha as [->|Ha]; [auto|]);
          by apply elem_of_nil in Ha. }
    assert (Hdirs : ∀ c path, actionOf cwd target formats c = Build.FsRemove path →
              (c = Build.RemoveDist ∧ path = "..//dist")
              ∨ (c = Build.RemovePackages ∧ path = "dist/packages")).
    { intros c path Hc. destruct c; cbn in Hc; try discriminate Hc;
        injection Hc as <-; auto. }
    split_and!.
    + split.
      * intros [E|Ha]%elem_of_cons; [discriminate E|].
        apply Hin in Ha as [E|[E|[E|(c & Hc & E)]]]; try discriminate E; [|auto].
        symmetry in E. apply Hdirs in E as [[-> _]|[_ [=]]].
        apply attempted_elem in Hc as [Hc _]. unfold performed in Hc.
        destruct formats; [|done]. cbn in Hc.
        repeat (apply elem_of_cons in Hc as [[=]|Hc]). by apply elem_of_nil in Hc.
      * intros ->. apply list_elem_of_lookup. by exists 1%nat.
    + intros ->. done.
    + intros [E|Ha]%elem_of_cons; [discriminate E|].
      apply Hin in Ha as [E|[E|[E|(c & Hc & E)]]]; try discriminate E; [|auto].
      symmetry in E. apply Hdirs in E as [[_ [=]]|[-> _]].
      apply attempted_elem in Hc as [_ Hc]. apply Hc.
      * unfold performed. destruct formats; cbn;
          repeat (apply NoDup_cons; split;
                  [intros Hn; repeat (apply elem_of_cons in Hn as [[=]|Hn]);
                   by apply elem_of_nil in Hn|]);
          apply NoDup_nil_2.
      * unfold performed. by destruct formats.
  - apply environment_cases.
Qed.

End BuildScript.

(** * The locate-me button *)

Section LocateButton.
Context `{Utils} `{Config}.

Lemma answered_spec (i : nat) (l : list nat) :
  NoDup l → NoDup (LocateMe.answered i l)
            ∧ ∀ j, j ∈ LocateMe.answered i l ↔ j ∈ l ∧ j ≠ i.
Proof.
  induction l as [|k l IH]; intros Hnd; cbn.
  - split; [constructor|]. intros j. split; [by intros ?%elem_of_nil | by intros [?%elem_of_nil _]].
  - apply NoDup_cons in Hnd as [Hk Hnd]. destruct (IH Hnd) as [IH1 IH2].
    destruct (decide (i = k)) as [->|Hne].
    + split; [done|]. intros j. rewrite elem_of_cons. split.
      * intros Hj. split; [by right|]. by intros ->.
      * intros [[->|Hj] Hjk]; done.
    + split.
      * apply NoDup_cons. split; [|done]. rewrite IH2. by intros [? _].
      * intros j. rewrite !elem_of_cons, IH2. split.
        -- intros [->|[Hj Hji]]; [split; [by left | done] | split; [by right | done]].
        -- intros [[->|Hj] Hji]; [by left | by right].
Qed.

(** Writing a button with the same disabled flag keeps the page in sync. *)
Lemma sync_same_flag (s : LocateMe.Page) (i : nat) (b b' : LocateMe.Button) :
  LocateMe.controls s !! i = Some b →
  LocateMe.disabled b' = LocateMe.disabled b →
  buttonsInSync s → buttonsInSync (LocateMe.set_button i b' s).
Proof.
  intros Hb Hd (Hnd & Hflag & Hex). split_and!; cbn; [done| |].
  - intros j bj Hj. destruct (decide (i = j)) as [->|Hne].
    + rewrite list_lookup_insert_eq in Hj by (by eapply lookup_lt_Some).
      injection Hj as <-. rewrite Hd. by apply Hflag.
    + rewrite list_lookup_insert_ne in Hj by done. by apply Hflag.
  - intros j Hj. destruct (decide (i = j)) as [->|Hne].
    + rewrite list_lookup_insert_eq by (by eapply lookup_lt_Some). by eexists.
    + rewrite list_lookup_insert_ne by done. by apply Hex.
Qed.

Lemma sync_hover (s : LocateMe.Page) (i : nat)
    (f : LocateMe.Button → LocateMe.Button) :
  (∀ b, LocateMe.disabled (f b) = LocateMe.disabled b) →
  buttonsInSync s →
  buttonsInSync
    (LocateMe.onButton i
       (λ b s, if negb (LocateMe.disabled b)
               then LocateMe.set_button i (f b) s else s) s).
Proof.
  intros Hf Hs. unfold LocateMe.onButton.
  destruct (LocateMe.controls s !! i) as [b|] eqn:Hb; [|done].
  destruct (negb (LocateMe.disabled b)); [|done].
  by apply (sync_same_flag s i b).
Qed.

Lemma sync_click (s : LocateMe.Page) (i : nat) :
  buttonsInSync s → buttonsInSync (LocateMe.click i s).
Proof.
  intros Hs. unfold LocateMe.click, LocateMe.onButton.
  destruct (LocateMe.controls s !! i) as [b|] eqn:Hb; [|done].
  destruct (LocateMe.disabled b) eqn:Hd; [done|].
  destruct (LocateMe.markerPosition (LocateMe.world s)); [done|].
  destruct (negb (MapViewB.geolocation (LocateMe.world s))); [done|].
  destruct Hs as (Hnd & Hflag & Hex).
  assert (Hi : i ∉ LocateMe.asked s).
  { intros Hi. apply (Hflag i b Hb) in Hi. congruence. }
  assert (Hlt : (i < length (LocateMe.controls s))%nat) by (by eapply lookup_lt_Some).
  split_and!; cbn.
  - apply NoDup_app. split_and!; [done | | apply NoDup_singleton].
    intros j Hj ->%list_elem_of_singleton. done.
  - intros j bj Hj. rewrite elem_of_app, list_elem_of_singleton.
    destruct (decide (i = j)) as [->|Hne].
    + rewrite list_lookup_insert_eq in Hj by done. injection Hj as <-.
      cbn. split; auto.
    + rewrite list_lookup_insert_ne in Hj by done.
      rewrite (Hflag j bj Hj). split; [auto | by intros [?|?]].
  - intros j [Hj| ->%list_elem_of_singleton]%elem_of_app.
    + destruct (decide (i = j)) as [->|Hne].
      * rewrite list_lookup_insert_eq by done. by eexists.
      * rewrite list_lookup_insert_ne by done. by apply Hex.
    + rewrite list_lookup_insert_eq by done. by eexists.
Qed.

Lemma sync_answer (s : LocateMe.Page) (i : nat)
    (k : LocateMe.Page → LocateMe.Page) :
  (∀ s', LocateMe.controls (k s') = LocateMe.controls s'
         ∧ LocateMe.asked (k s') = LocateMe.asked s') →
  i ∈ LocateMe.asked s →
  buttonsInSync s →
  buttonsInSync
    (LocateMe.onButton i (λ b s', LocateMe.set_button i (LocateMe.ready b) (k s'))
       (LocateMe.set_asked (LocateMe.answered i (LocateMe.asked s)) s)).
Proof.
  intros Hk Hi (Hnd & Hflag & Hex). unfold LocateMe.onButton. cbn.
  destruct (Hex i Hi) as [b Hb]. rewrite Hb.
  destruct (answered_spec i (LocateMe.asked s) Hnd) as [Hnd' Hin'].
  assert (Hlt : (i < length (LocateMe.controls s))%nat) by (by eapply lookup_lt_Some).
  destruct (Hk (LocateMe.set_asked (LocateMe.answered i (LocateMe.asked s)) s))
    as [Hkc Hka]. cbn in Hkc, Hka.
  split_and!; cbn; rewrite ?Hkc, ?Hka.
  - done.
  - intros j bj Hj. rewrite Hin'. destruct (decide (i = j)) as [->|Hne].
    + rewrite list_lookup_insert_eq in Hj by done. injection Hj as <-.
      cbn. split; [done | by intros [_ ?]].
    + rewrite list_lookup_insert_ne in Hj by done.
      rewrite (Hflag j bj Hj). split; [by split | by intros [? _]].
  - intros j [Hj Hne]%Hin'. rewrite list_lookup_insert_ne by done. by apply Hex.
Qed.

Lemma sync_step (s : LocateMe.Page) (e : LocateMe.event) :
  buttonsInSync s → buttonsInSync (LocateMe.step s e).
Proof.
  intros Hs. destruct e as [ce|i|i|i|i|i|i pos|i]; cbn [LocateMe.step].
  - assert (Hpush : buttonsInSync (LocateMe.pushButton s)).
    { unfold LocateMe.pushButton. destruct (_ && _); [|done].
      destruct Hs as (Hnd & Hflag & Hex). split_and!; cbn; [done| |].
      - intros j bj Hj.
        destruct (decide (j < length (LocateMe.controls s))%nat) as [Hlt|Hge].
        + rewrite lookup_app_l in Hj by done. by apply Hflag.
        + rewrite lookup_app_r in Hj by lia.
          destruct (j - length (LocateMe.controls s))%nat as [|n] eqn:E; [|done].
          injection Hj as <-. cbn. split; [done|].
          intros [bj Hbj]%Hex. apply lookup_lt_Some in Hbj. lia.
      - intros j [bj Hbj]%Hex. rewrite lookup_app_l by (by eapply lookup_lt_Some).
        by eexists. }
    destruct ce; done.
  - by apply (sync_hover s i (λ b, {| LocateMe.disabled := LocateMe.disabled b |})).
  - by apply (sync_hover s i (λ b, {| LocateMe.disabled := LocateMe.disabled b |})).
  - by apply (sync_hover s i (λ b, {| LocateMe.disabled := LocateMe.disabled b |})).
  - by apply (sync_hover s i (λ b, {| LocateMe.disabled := LocateMe.disabled b |})).
  - by apply sync_click.
  - case_decide; [|done]. by apply (sync_answer s i (LocateMe.pan pos)).
  - case_decide; [|done]. by apply (sync_answer s i (λ s', s')).
Qed.

Lemma sync_run (p : Props) (map : Map) (geo : bool) (es : list LocateMe.event) :
  buttonsInSync (LocateMe.run (LocateMe.start p map geo) es).
Proof.
  assert (Hstart : buttonsInSync (LocateMe.start p map geo)).
  { split_and!; cbn.
    - apply NoDup_nil_2.
    - intros i b Hi. by rewrite lookup_nil in Hi.
    - by intros i ?%elem_of_nil. }
  revert Hstart. generalize (LocateMe.start p map geo).
  induction es as [|e es IH]; intros s Hs; [done|].
  cbn. apply IH. by apply sync_step.
Qed.

(** X13: a locate-me button never has two requests of its own open,
    and it is disabled exactly while its request is unanswered: after
    every sequence of component events, hovers, presses, clicks and
    answers, whatever their order. *)
Theorem locate_button_in_sync (p : Props) (map : Map) (geo : bool)
    (es : list LocateMe.event) :
  let s := LocateMe.run (LocateMe.start p map geo) es in
  NoDup (LocateMe.asked s)
  ∧ ∀ i b, LocateMe.controls s !! i = Some b →
           (LocateMe.disabled b = true ↔ i ∈ LocateMe.asked s).
Proof.
  intros s. destruct (sync_run p map geo es) as (Hnd & Hflag & _). by split.
Qed.

(** X14: what the locate-me button does to the component.  Its events
    (hover, press, click, the answers to its request) leave the world of
    the component as it is, or pan the widget: no marker, watch, state or
    callback is touched.  A click on an enabled button pans to the held
    marker's position without a request, even without geolocation; with
    no marker and no geolocation it does nothing; a click on a disabled
    button does nothing. *)
Theorem locate_button_and_component (s : LocateMe.Page) (e : LocateMe.event)
    (i : nat) (b : LocateMe.Button) :
  (isButtonEvent e = true →
   LocateMe.world (LocateMe.step s e) = LocateMe.world s
   ∨ ∃ pos, LocateMe.world (LocateMe.step s e)
            = MapViewB.set_widget
                (panTo pos (MapViewB.widget (LocateMe.world s)))
                (LocateMe.world s))
  ∧ (LocateMe.controls s !! i = Some b →
     (LocateMe.disabled b = true → LocateMe.step s (LocateMe.Click i) = s)
     ∧ (LocateMe.disabled b = false →
        ∀ pos, LocateMe.markerPosition (LocateMe.world s) = Some pos →
               LocateMe.step s (LocateMe.Click i) = LocateMe.pan pos s)
     ∧ (LocateMe.disabled b = false →
        LocateMe.markerPosition (LocateMe.world s) = None →
        MapViewB.geolocation (LocateMe.world s) = false →
        LocateMe.step s (LocateMe.Click i) = s)).
Proof.
  split.
  - intros He. destruct e as [ce|j|j|j|j|j|j pos|j]; try discriminate He;
      cbn [LocateMe.step];
      unfold LocateMe.mouseenter, LocateMe.mouseleave, LocateMe.mousedown,
        LocateMe.mouseup, LocateMe.click, LocateMe.located,
        LocateMe.locateFailed, LocateMe.onButton.
    + destruct (LocateMe.controls s !! j) as [bj|]; [|by left].
      destruct (negb (LocateMe.disabled bj)); by left.
    + destruct (LocateMe.controls s !! j) as [bj|]; [|by left].
      destruct (negb (LocateMe.disabled bj)); by left.
    + destruct (LocateMe.controls s !! j) as [bj|]; [|by left].
      destruct (negb (LocateMe.disabled bj)); by left.
    + destruct (LocateMe.controls s !! j) as [bj|]; [|by left].
      destruct (negb (LocateMe.disabled bj)); by left.
    + destruct (LocateMe.controls s !! j) as [bj|]; [|by left].
      destruct (LocateMe.disabled bj); [by left|].
      destruct (LocateMe.markerPosition (LocateMe.world s)) as [pos|];
        [right; by exists pos|].
      destruct (negb (MapViewB.geolocation (LocateMe.world s))); by left.
    + case_decide; [|by left]. cbn.
      destruct (LocateMe.controls s !! j) as [bj|]; [|by left].
      right. by exists pos.
    + case_decide; [|by left]. cbn.
      destruct (LocateMe.controls s !! j) as [bj|]; by left.
  - intros Hb. cbn [LocateMe.step]. unfold LocateMe.click, LocateMe.onButton.
    rewrite Hb. split_and!.
    + by intros ->.
    + intros -> pos ->. done.
    + intros -> -> ->. done.
Qed.

End LocateButton.

(** * The properties on concrete runs *)

Section Runs.
#[local] Existing Instance Converter.utils.
#[local] Existing Instance sampleConfig.


Lemma outward_calls_from_widget_events_only_witness :
  let wA := MapViewA.run (MapViewA.mount sampleProps sampleMap) [MapViewA.Load] in
  let wB := MapViewB.run (MapViewB.mount trackingProps sampleMap true)
              [MapViewB.Load] in
  MapViewA.trace (MapViewA.step wA (MapViewA.Rerender regionProps))
  = MapViewA.trace wA
  ∧ MapViewB.trace (MapViewB.step wB (MapViewB.FixOnce here))
    = MapViewB.trace wB.
Proof.
  intros wA wB.
  destruct (outward_calls_from_widget_events_only
              wA (MapViewA.Rerender regionProps) wB (MapViewB.FixOnce here))
    as [HA HB].
  split; [apply HA | apply HB]; reflexivity.
Defined.



Lemma first_component_options_precedence_witness :
  let w := MapViewA.run (MapViewA.mount draggableProps sampleMap)
             [MapViewA.Load] in
  MapViewA.options w !! "draggable" = Some (VBool false)
  ∧ (MapViewA.options w !! "zoomControl"
     = computedOptions (MapViewA.props w) !! "zoomControl"
     ∧ is_Some (MapViewA.options w !! "zoomControl"))
  ∧ MapViewA.options w !! "disableDefaultUI"
    = DEFAULT_OPTIONS !! "disableDefaultUI".
Proof.
  intros w. split; [|split].
  - destruct (first_component_options_precedence
                draggableProps sampleMap [MapViewA.Load] "draggable")
      as (H1 & _ & _).
    apply H1. reflexivity.
  - destruct (first_component_options_precedence
                draggableProps sampleMap [MapViewA.Load] "zoomControl")
      as (_ & H2 & _).
    apply H2; [reflexivity|]. unfold computedKeys. repeat constructor.
  - destruct (first_component_options_precedence
                draggableProps sampleMap [MapViewA.Load] "disableDefaultUI")
      as (_ & _ & H3).
    apply H3; [reflexivity|]. unfold computedKeys. intros Hk.
    repeat (apply elem_of_cons in Hk as [[=]|Hk]). by apply elem_of_nil in Hk.
Defined.

Lemma one_marker_on_the_map_witness :
  let w := MapViewB.run (MapViewB.mount trackingProps sampleMap true)
             [MapViewB.Load; MapViewB.FixWatch 0 here;
              MapViewB.FixWatch 0 there; MapViewB.Rerender sampleProps;
              MapViewB.FixOnce late] in
  1%nat = 1%nat ∧ MapViewB.userLocationMarker w = Some 1%nat.
Proof.
  intros w.
  pose proof (one_marker_on_the_map trackingProps sampleMap true
                [MapViewB.Load; MapViewB.FixWatch 0 here;
                 MapViewB.FixWatch 0 there; MapViewB.Rerender sampleProps;
                 MapViewB.FixOnce late]
                1 1 {| position := late; onMap := true |}
                {| position := late; onMap := true |}) as Hone.
  cbv zeta in Hone. apply Hone; reflexivity.
Defined.

Lemma overlay_starts_at_load_witness :
  let w := MapViewB.run (MapViewB.mount trackingProps sampleMap true)
             [MapViewB.Rerender trackingProps; MapViewB.Idle] in
  let w' := MapViewB.step w MapViewB.Load in
  (MapViewB.overlay w = [] ∧ MapViewB.watches w = []
   ∧ MapViewB.pendingFixes w = 0%nat)
  ∧ (MapViewB.overlay w'
     = [MapViewB.GetCurrentPosition; MapViewB.WatchPosition 0]
     ∧ MapViewB.watches w' = [0%nat] ∧ MapViewB.pendingFixes w' = 1%nat).
Proof.
  intros w w'.
  destruct (overlay_starts_at_load trackingProps sampleMap true
              [MapViewB.Rerender trackingProps; MapViewB.Idle])
    as [Hbefore Hload]; [reflexivity|].
  split; [exact Hbefore | apply Hload; reflexivity].
Defined.

Lemma no_leaked_watch_witness :
  let w := MapViewB.run (MapViewB.mount trackingProps sampleMap true)
             [MapViewB.Load; MapViewB.Rerender sampleProps] in
  (length (MapViewB.watches w) ≤ 1)%nat ∧ MapViewB.watches w = [].
Proof.
  intros w.
  destruct (no_leaked_watch trackingProps sampleMap true
              [MapViewB.Load; MapViewB.Rerender sampleProps]) as [Hone Hoff].
  split; [exact Hone | apply Hoff; right; reflexivity].
Defined.

Lemma completions_follow_changes_witness :
  completionsFollowChanges
    (MapViewA.trace
       (MapViewA.run (MapViewA.mount sampleProps sampleMap)
          [MapViewA.Load; MapViewA.Idle; MapViewA.Rerender regionProps;
           MapViewA.ZoomChanged]))
  ∧ completionsFollowChanges
      (MapViewB.trace
         (MapViewB.run (MapViewB.mount sampleProps sampleMap true)
            [MapViewB.Load; MapViewB.Idle; MapViewB.Rerender regionProps;
             MapViewB.ZoomChanged])).
Proof.
  apply (completions_follow_changes sampleProps sampleMap true
           [MapViewA.Load; MapViewA.Idle; MapViewA.Rerender regionProps;
            MapViewA.ZoomChanged]
           [MapViewB.Load; MapViewB.Idle; MapViewB.Rerender regionProps;
            MapViewB.ZoomChanged]); reflexivity.
Defined.

Lemma build_outcomes_witness :
  let start :=
    Build.SpinnerStart
      ("Building " +:+ Build.name samplePackage +:+ " "
       +:+ String (Ascii.ascii_of_nat 13) "") in
  Build.build "/repo" "" None samplePackage nothingFails
  = start :: (actionOf "/repo" "" None <$> performed None)
      ++ [Build.SpinnerSucceed]
  ∧ Build.build "/repo" "" None samplePackage rollupFails
    = start :: (actionOf "/repo" "" None <$> [Build.RemoveDist])
        ++ [actionOf "/repo" "" None Build.Rollup; Build.SpinnerFail;
            Build.ConsoleError].
Proof.
  intros start. split.
  - destruct (build_outcomes "/repo" "" None samplePackage nothingFails)
      as [Hok _]; [reflexivity|].
    apply Hok. intros c _. reflexivity.
  - destruct (build_outcomes "/repo" "" None samplePackage rollupFails)
      as [_ Hfail]; [reflexivity|].
    apply (Hfail [Build.RemoveDist] Build.Rollup
             [Build.Require; Build.Prepare; Build.Invoke; Build.RemovePackages]).
    + reflexivity.
    + intros c' Hc'. apply list_elem_of_singleton in Hc' as ->. reflexivity.
    + reflexivity.
Defined.

Lemma build_directories_witness :
  let actions := Build.build "/repo" "" None samplePackage nothingFails in
  Build.build "/repo" "" None skippedPackage nothingFails = []
  ∧ (Build.FsRemove "..//dist" ∈ actions ↔ @None string = None)
  ∧ actions !! 1%nat = Some (Build.FsRemove "..//dist")
  ∧ nothingFails Build.Rollup = false.
Proof.
  intros actions.
  destruct (build_directories "/repo" "" None skippedPackage nothingFails)
    as (Hskip & _ & _).
  destruct (build_directories "/repo" "" None samplePackage nothingFails)
    as (_ & Hrun & _).
  destruct Hrun as (Hdist & Hfirst & Hlast); [reflexivity|].
  split_and!.
  - apply Hskip. reflexivity.
  - exact Hdist.
  - apply Hfirst. reflexivity.
  - apply Hlast.
    + apply list_elem_of_lookup. by exists 6%nat.
    + unfold performed. cbn. repeat constructor.
    + discriminate.
Defined.

Lemma locate_button_in_sync_witness :
  let s := LocateMe.run (LocateMe.start locateProps sampleMap true)
             [LocateMe.Component MapViewB.Load; LocateMe.Click 0] in
  NoDup (LocateMe.asked s)
  ∧ (LocateMe.disabled (LocateMe.busy LocateMe.created) = true
     ↔ 0%nat ∈ LocateMe.asked s).
Proof.
  intros s.
  destruct (locate_button_in_sync locateProps sampleMap true
              [LocateMe.Component MapViewB.Load; LocateMe.Click 0])
    as [Hnd Hflag].
  split; [exact Hnd | apply Hflag; reflexivity].
Defined.

Lemma locate_button_and_component_witness :
  let s1 := LocateMe.run (LocateMe.start locateProps sampleMap false)
              [LocateMe.Component MapViewB.Load] in
  let s2 := LocateMe.run (LocateMe.start locateProps sampleMap true)
              [LocateMe.Component MapViewB.Load;
               LocateMe.Component (MapViewB.FixOnce here)] in
  let s3 := LocateMe.run (LocateMe.start locateProps sampleMap true)
              [LocateMe.Component MapViewB.Load; LocateMe.Click 0] in
  (LocateMe.world (LocateMe.step s2 (LocateMe.Click 0)) = LocateMe.world s2
   ∨ ∃ pos, LocateMe.world (LocateMe.step s2 (LocateMe.Click 0))
            = MapViewB.set_widget
                (panTo pos (MapViewB.widget (LocateMe.world s2)))
                (LocateMe.world s2))
  ∧ LocateMe.step s1 (LocateMe.Click 0) = s1
  ∧ LocateMe.step s2 (LocateMe.Click 0) = LocateMe.pan here s2
  ∧ LocateMe.step s3 (LocateMe.Click 0) = s3.
Proof.
  intros s1 s2 s3. split_and!.
  - destruct (locate_button_and_component s2 (LocateMe.Click 0) 0
                LocateMe.created) as [Hworld _].
    apply Hworld. reflexivity.
  - destruct (locate_button_and_component s1 (LocateMe.Click 0) 0
                LocateMe.created) as [_ Hclick].
    destruct Hclick as (_ & _ & Hnone); [reflexivity|].
    apply Hnone; reflexivity.
  - destruct (locate_button_and_component s2 (LocateMe.Click 0) 0
                LocateMe.created) as [_ Hclick].
    destruct Hclick as (_ & Hpan & _); [reflexivity|].
    apply Hpan; reflexivity.
  - destruct (locate_button_and_component s3 (LocateMe.Click 0) 0
                (LocateMe.busy LocateMe.created)) as [_ Hclick].
    destruct Hclick as (Hbusy & _ & _); [reflexivity|].
    apply Hbusy. reflexivity.
Defined.

End Runs.
